(** * Cashier dashboard: notification synchronisation and request client

    A shallow embedding of the client-side logic of the cashier dashboard:
    - [utils/api.ts]: the request client ([apiRequest],
      [authenticatedApiRequest], [handleApiError], [parseApiResponse]);
    - the dashboard panel ([CashierDashboard]) and the header bell
      ([NotificationBell]): their notification list and unread counter, and
      the handlers that mutate them.

    Promises are run against an explicit description of what the network
    does; a handler that awaits is a computation that yields the React state
    update it applies when it resumes. *)

From stdpp Require Import base list strings gmap pretty.
From Stdlib Require Import ZArith Lia.

Set Warnings "-register-all".

Open Scope Z_scope.

(** ** JavaScript values and platform primitives *)

Module Js.

(** A value produced by [JSON.parse]. Numbers are the integer-valued ones:
    [JNum z] is the Number nearest to the integer [z], which is [z] itself
    up to 2^53. [JObj] lists the own properties of the parsed object (the
    first binding of a key is its value). *)
Inductive JSON : Type :=
| JNull
| JBool (b : bool)
| JNum (z : Z)
| JStr (s : string)
| JArr (items : list JSON)
| JObj (fields : list (string * JSON)).

(** Result of a property read or of a parsed value used as an expression:
    [None] is [undefined]. *)
Definition value : Type := option JSON.

Fixpoint assoc (k : string) (fields : list (string * JSON)) : value :=
  match fields with
  | [] => None
  | (k', v) :: rest => if bool_decide (k' = k) then Some v else assoc k rest
  end.

(** [o.k] for a non-null [o]. None of the property names read by this
    program ([error], [message], [success], [notifications], and the
    notification fields) is an inherited property of a string, number,
    boolean or array, so those reads give [undefined]. Reading a property
    of [null] throws and is handled where it can happen. *)
Definition prop (k : string) (o : JSON) : value :=
  match o with
  | JObj fields => assoc k fields
  | _ => None
  end.

(** ToBoolean. *)
Definition truthy (v : value) : bool :=
  match v with
  | None => false
  | Some JNull => false
  | Some (JBool b) => b
  | Some (JNum z) => negb (z =? 0)
  | Some (JStr s) => negb (bool_decide (s = ""))
  | Some (JArr _) => true
  | Some (JObj _) => true
  end.

(** [a || b]. *)
Definition or (a b : value) : value := if truthy a then a else b.

Fixpoint join (sep : string) (parts : list string) : string :=
  match parts with
  | [] => ""
  | [p] => p
  | p :: rest => p +:+ sep +:+ join sep rest
  end.

(** The Number nearest to a non-negative integer: a Number holds 53
    significant bits, and a longer integer is rounded to the nearest one
    that fits, to the even one on a tie. From 2^1024 on the result stands
    for [Infinity]. *)
Definition nearestNumber (n : Z) : Z :=
  let excess := Z.log2 n + 1 - 53 in
  if excess <=? 0 then n
  else
    let q := Z.shiftr n excess in
    let r := n - Z.shiftl q excess in
    let half := Z.shiftl 1 (excess - 1) in
    let q' := if (half <? r) || ((r =? half) && Z.odd q) then q + 1 else q in
    Z.shiftl q' excess.

(** The ways of writing the Number [x], which has [d] decimal digits, with
    [k] significant digits: the pairs [(s, n)] of a [k]-digit integer [s]
    and an exponent [n] such that [s * 10 ^ (n - k)] is read back as [x]. *)
Definition writtenWith (x d k : Z) : list (Z * Z) :=
  n ← [d; d + 1];
  let p := 10 ^ (n - k) in
  s ← [x / p; x / p + 1];
  if (10 ^ (k - 1) <=? s) && (s <? 10 ^ k) && (nearestNumber (s * p) =? x)
  then [(s, n)] else [].

(** Of two ways of writing [x] with [k] digits, the one nearer to [x], and
    the even one on a tie. *)
Definition nearer (x k : Z) (a b : Z * Z) : Z * Z :=
  let distance c := Z.abs (c.1 * 10 ^ (c.2 - k) - x) in
  if distance b <? distance a then b
  else if (distance b =? distance a) && Z.even b.1 then b
  else a.

(** The shortest way of writing [x], trying [k] digits, then [k + 1], and
    so on; seventeen digits always do. *)
Fixpoint shortest (fuel : nat) (x d k : Z) : Z * Z :=
  match fuel with
  | O => (x, d)
  | S fuel' =>
      match writtenWith x d k with
      | c :: rest => foldl (nearer x k) c rest
      | [] => shortest fuel' x d (k + 1)
      end
  end.

(** Exponent notation: the shortest digits that are read back as [x], a
    point after the first of them, and the exponent. *)
Definition exponential (x : Z) : string :=
  let '(s, n) := shortest 17 x (Z.of_nat (String.length (pretty x))) 1 in
  match pretty s with
  | String c EmptyString => String c EmptyString
  | String c rest => String c ("." +:+ rest)
  | EmptyString => EmptyString
  end +:+ "e+" +:+ pretty (n - 1).

(** [Number.prototype.toString] on an integer-valued Number: decimal digits
    below 10^21, exponent notation from there on. *)
Definition numberToString (z : Z) : string :=
  let x := nearestNumber (Z.abs z) in
  (if z <? 0 then "-" else "")
  +:+ (if x <? 10 ^ 21 then pretty x
       else if 2 ^ 1024 <=? x then "Infinity"
       else exponential x).

(** ToString, as [new Error(x)] applies it to its argument; [None] when the
    conversion throws a [TypeError]. An array prints its elements joined by
    commas, [null] elements as nothing. An object is converted by its
    [toString] method: a parsed object inherits the one that prints
    [[object Object]], unless it has an own property of that name, which is
    no function; the conversion then turns to [valueOf], which gives no
    primitive value either, and throws. *)
Fixpoint toString (j : JSON) : option string :=
  match j with
  | JNull => Some "null"
  | JBool true => Some "true"
  | JBool false => Some "false"
  | JNum z => Some (numberToString z)
  | JStr s => Some s
  | JArr items =>
      match (fix elems (l : list JSON) : option (list string) :=
               match l with
               | [] => Some []
               | x :: rest =>
                   match (match x with JNull => Some "" | _ => toString x end),
                         elems rest with
                   | Some s, Some parts => Some (s :: parts)
                   | _, _ => None
                   end
               end) items with
      | Some parts => Some (join "," parts)
      | None => None
      end
  | JObj fields =>
      match assoc "toString" fields with
      | Some _ => None
      | None => Some "[object Object]"
      end
  end.

(** [Array.prototype.slice(start, end)]. *)
Definition relativeIndex (len i : Z) : Z :=
  if i <? 0 then Z.max (len + i) 0 else Z.min i len.

Definition slice {A : Type} (start finish : Z) (l : list A) : list A :=
  let len := Z.of_nat (length l) in
  let k := relativeIndex len start in
  let final := relativeIndex len finish in
  take (Z.to_nat (final - k)) (drop (Z.to_nat k) l).

(** [Array.prototype.some]. *)
Definition some {A : Type} (p : A -> bool) (l : list A) : bool := existsb p l.

(** A thrown value: an [Error] instance with its [name] and [message]; an
    [Error] instance raised by the platform itself (a [TypeError], a
    [SyntaxError], the [DOMException] of an abort), of which the [name] is
    what the program can rely on, the message being the engine's own; or
    anything else. *)
Inductive thrown : Type :=
| ErrorObj (name message : string)
| PlatformError (name : string)
| NonError (description : string).

(** [e.name] for a thrown [e] that is an [Error] instance
    ([e instanceof Error]), and [None] for one that is not. *)
Definition errorName (e : thrown) : option string :=
  match e with
  | ErrorObj name _ => Some name
  | PlatformError name => Some name
  | NonError _ => None
  end.

(** [new Error(message)] for a string. *)
Definition newError (message : string) : thrown := ErrorObj "Error" message.

(** What [throw new Error(message)] throws for a message of any type: the
    constructor converts the message to a string, and the [TypeError] of a
    conversion that throws is thrown in place of the new error. Without a
    message ([undefined]) the error has the empty message it inherits. *)
Definition newErrorFrom (message : value) : thrown :=
  match message with
  | None => newError ""
  | Some v =>
      match toString v with
      | Some s => newError s
      | None => PlatformError "TypeError"
      end
  end.

(** The state of a promise once the event loop has run as far as it can. *)
Inductive outcome (A : Type) : Type :=
| Fulfilled (a : A)
| Rejected (e : thrown)
| Pending.
Arguments Fulfilled {A} a.
Arguments Rejected {A} e.
Arguments Pending {A}.

(** [Promise.all]: rejects as soon as one input rejects, otherwise waits
    for every input. The rejection reported is that of one rejected input
    (the handlers of this program only log it). *)
Fixpoint promiseAll {A : Type} (ps : list (outcome A)) : outcome (list A) :=
  match ps with
  | [] => Fulfilled []
  | p :: rest =>
      match p, promiseAll rest with
      | Rejected e, _ => Rejected e
      | _, Rejected e => Rejected e
      | Pending, _ => Pending
      | _, Pending => Pending
      | Fulfilled a, Fulfilled l => Fulfilled (a :: l)
      end
  end.

(** WebIDL conversion to [long], applied by [setTimeout] to its delay. *)
Definition toInt32 (z : Z) : Z :=
  let m := z mod 2 ^ 32 in
  if 2 ^ 31 <=? m then m - 2 ^ 32 else m.

(** The delay after which a timer set with [setTimeout(f, ms)] fires. *)
Definition timerDelay (ms : Z) : Z := Z.max 0 (toInt32 ms).

End Js.
Export Js.

(** ** HTTP: requests, responses and the network *)

(** [HeadersInit]: a plain object, an array of name and value pairs, or a
    [Headers] instance (with the entries it holds). *)
Inductive HeadersInit : Type :=
| HeadersObject (entries : gmap string string)
| HeadersPairs (pairs : list (string * string))
| HeadersInstance (entries : list (string * string)).

(** No [headers] member, or the object [{}], which [fetch] and an object
    spread treat alike. *)
Definition noHeaders : HeadersInit := HeadersObject ∅.

(** The own enumerable properties that the spread [{...h}] copies: the
    entries of a plain object; of an array of pairs, the pairs under their
    indices ([fetch] reads such a value as the text [name,value]); and
    none of a [Headers] instance, which keeps its entries in internal
    state. *)
Definition spread (h : HeadersInit) : gmap string string :=
  match h with
  | HeadersObject entries => entries
  | HeadersPairs pairs =>
      list_to_map
        (imap (fun (i : nat) (p : string * string) =>
                 (pretty i, p.1 +:+ "," +:+ p.2))
           pairs)
  | HeadersInstance _ => ∅
  end.

Record RequestInit : Type := mkInit {
  method : option string;
  headers : HeadersInit;
  body : option string;
}.

(** A [Response]: [json] is how the promise [response.json()] settles. It
    is fulfilled with the parsed body; it is rejected with a [SyntaxError]
    when the body is not JSON and with the transport's error when the body
    cannot be read to its end; and it stays pending when the body never
    ends. *)
Record Response : Type := mkResponse {
  status : Z;
  statusText : string;
  json : outcome JSON;
}.

(** [response.ok]. *)
Definition ok (r : Response) : bool := (200 <=? status r) && (status r <=? 299).

(** One call of [fetch]: the URL, the init dictionary, and the instant (in
    ms after the call) at which the attached signal aborts, if a signal is
    attached. *)
Record FetchCall : Type := mkCall {
  url : string;
  init : RequestInit;
  signal : option Z;
}.

(** What the network does with a request: answer with a response after some
    time, fail after some time, or stay silent. *)
Inductive NetReply : Type :=
| Responds (ms : Z) (r : Response)
| Fails (ms : Z) (e : thrown)
| Hangs.

(** The environment of the page. *)
Record Env : Type := mkEnv {
  (** [process.env.REACT_APP_API_URL] *)
  REACT_APP_API_URL : option string;
  (** the module-level constant [API_BASE_URL] of [utils/api.ts], computed
      once from [REACT_APP_API_URL] when the module is loaded *)
  API_BASE_URL : string;
  (** [localStorage.getItem('accessToken')] *)
  accessToken : option string;
  network : string -> RequestInit -> NetReply;
}.

(** The [DOMException] named [AbortError] with which an aborted [fetch]
    rejects. *)
Definition abortError : thrown := PlatformError "AbortError".

(** [fetch(url, init)]: the promise settles with the network's answer,
    unless the signal aborts strictly before the answer arrives, in which
    case it rejects with the [AbortError] exception. *)
Definition fetch (env : Env) (c : FetchCall) : outcome Response :=
  match network env (url c) (init c), signal c with
  | Responds ms r, Some d => if d <? ms then Rejected abortError else Fulfilled r
  | Responds ms r, None => Fulfilled r
  | Fails ms e, Some d => if d <? ms then Rejected abortError else Rejected e
  | Fails ms e, None => Rejected e
  | Hangs, Some d => Rejected abortError
  | Hangs, None => Pending
  end.

(** ** Asynchronous computations

    An [async] function, run to the end against the environment: the
    [fetch] calls it issued, in order, and the state of the promise it
    returned. *)

Definition Async (A : Type) : Type := Env -> list FetchCall * outcome A.

Definition ret {A : Type} (a : A) : Async A := fun _ => ([], Fulfilled a).

Definition throw {A : Type} (e : thrown) : Async A := fun _ => ([], Rejected e).

(** [await m] followed by [k]. *)
Definition bind {A B : Type} (m : Async A) (k : A -> Async B) : Async B :=
  fun env =>
    match m env with
    | (calls, Fulfilled a) => let '(calls', r) := k a env in (calls ++ calls', r)
    | (calls, Rejected e) => (calls, Rejected e)
    | (calls, Pending) => (calls, Pending)
    end.

(** [try { m } catch (e) { h e }]. *)
Definition tryCatch {A : Type} (m : Async A) (h : thrown -> Async A) : Async A :=
  fun env =>
    match m env with
    | (calls, Rejected e) => let '(calls', r) := h e env in (calls ++ calls', r)
    | settled => settled
    end.

(** Start every computation of the list (each runs up to its [fetch]
    synchronously), then [await Promise.all]. *)
Definition all {A : Type} (ms : list (Async A)) : Async (list A) :=
  fun env =>
    let runs := map (fun m => m env) ms in
    (concat (map fst runs), promiseAll (map snd runs)).

(** [fetch] as an asynchronous computation. *)
Definition fetchAsync (c : FetchCall) : Async Response :=
  fun env => ([c], fetch env c).

Declare Scope async_scope.
Delimit Scope async_scope with async.
Notation "x <- m ;; k" := (bind m (fun x => k))
  (at level 100, m at next level, right associativity) : async_scope.
Notation "m ;;; k" := (bind m (fun _ => k))
  (at level 100, right associativity) : async_scope.
Open Scope async_scope.

(** ** The request client: [utils/api.ts] *)

Module Api.

(** [ApiRequestOptions]: a [RequestInit] with an optional [timeout]. A
    [signal] supplied by the caller is replaced by the client's own and is
    left out. *)
Record ApiRequestOptions : Type := mkOptions {
  timeout : option Z;
  fetchOptions : RequestInit;
}.

(** The default parameter [options = {}]. *)
Definition noOptions : ApiRequestOptions :=
  mkOptions None (mkInit None noHeaders None).

(** [apiRequest]: the abort timer is set to [timeout] (10000 unless given),
    the endpoint is resolved against [API_BASE_URL] unless it starts with
    [http], and a rejection of [fetch] is translated in the [catch] block. *)
Definition apiRequest (endpoint : string) (options : ApiRequestOptions)
  : Async Response :=
  fun env =>
    let timeout := default 10000 (timeout options) in
    let signal := Some (timerDelay timeout) in
    tryCatch
      (let url :=
         if String.prefix "http" endpoint then endpoint
         else API_BASE_URL env +:+ endpoint in
       response <- fetchAsync (mkCall url (fetchOptions options) signal) ;;
       ret response)
      (fun error =>
         match errorName error with
         | Some name =>
             if bool_decide (name = "AbortError")
             then throw (newError "Request timeout")
             else throw error
         | None => throw (newError "Network error")
         end)
      env.

(** The [headers] object literal of [authenticatedApiRequest]: later
    entries of the literal win, so what the spread of the caller's headers
    copies is looked up first, then the [Authorization] entry (spread only
    when the token is truthy), then [Content-Type]. *)
Definition authHeaders (token : option string) (callerHeaders : HeadersInit)
  : gmap string string :=
  spread callerHeaders
  ∪ (match token with
     | Some t =>
         if bool_decide (t = "") then ∅
         else {[ "Authorization" := "Bearer " +:+ t ]}
     | None => ∅
     end)
  ∪ {[ "Content-Type" := "application/json" ]}.

Definition authenticatedApiRequest (endpoint : string) (options : ApiRequestOptions)
  : Async Response :=
  fun env =>
    let token := accessToken env in
    let authOptions :=
      mkOptions (timeout options)
        (mkInit (method (fetchOptions options))
                (HeadersObject (authHeaders token (headers (fetchOptions options))))
                (body (fetchOptions options))) in
    apiRequest endpoint authOptions env.

Definition withMethod (m : string) (data : option string) : ApiRequestOptions :=
  mkOptions None (mkInit (Some m) noHeaders data).

Definition apiGet (endpoint : string) : Async Response :=
  authenticatedApiRequest endpoint (withMethod "GET" None).

(** [data] is the text [JSON.stringify] produced. *)
Definition apiPost (endpoint : string) (data : string) : Async Response :=
  authenticatedApiRequest endpoint (withMethod "POST" (Some data)).

Definition apiPut (endpoint : string) (data : string) : Async Response :=
  authenticatedApiRequest endpoint (withMethod "PUT" (Some data)).

Definition apiPatch (endpoint : string) (data : string) : Async Response :=
  authenticatedApiRequest endpoint (withMethod "PATCH" (Some data)).

Definition apiDelete (endpoint : string) : Async Response :=
  authenticatedApiRequest endpoint (withMethod "DELETE" None).

(** [await response.json()]: no request is made; the promise is the one
    the response carries. *)
Definition responseJson (response : Response) : Async JSON :=
  fun _ => ([], json response).

(** [`HTTP ${response.status}: ${response.statusText}`] *)
Definition httpFallback (response : Response) : string :=
  "HTTP " +:+ pretty (status response) +:+ ": " +:+ statusText response.

(** The variable [errorMessage] of [handleApiError] when the [throw]
    statement is reached. It starts as [An error occurred]; the [try]
    block sets it from the body, and fails when [response.json()] rejects
    and also when it resolves to [null] (reading [errorData.error] then
    throws); the [catch] block sets it to the HTTP fallback. *)
Definition errorMessage (response : Response) : Async value :=
  tryCatch
    (errorData <- responseJson response ;;
     match errorData with
     | JNull => throw (PlatformError "TypeError")
     | _ =>
         ret (Js.or (Js.or (prop "error" errorData) (prop "message" errorData))
                (Some (JStr "An error occurred")))
     end)
    (fun _ => ret (Some (JStr (httpFallback response)))).

Definition handleApiError {A : Type} (response : Response) : Async A :=
  errorMessage <- errorMessage response ;;
  throw (newErrorFrom errorMessage).

Definition parseApiResponse (response : Response) : Async JSON :=
  (if negb (ok response) then handleApiError response else ret tt) ;;;
  responseJson response.

End Api.

(** ** Notifications and the per-surface store *)

(** Modelled from the spec: the interface [CustomerRegistrationNotification]
    is declared in [notifications/CustomerRegistrationToast], which is not
    among the sources. The fields are the ones the two surfaces read:
    [notification_id] (the identity key), [created_at] and, of
    [customer_data], the customer's [id] and [name]; the remaining fields
    are only displayed. *)
Record CustomerRegistrationNotification : Type := mkNotification {
  notification_id : string;
  created_at : string;
  customer_id : Z;
  customer_name : string;
}.

Definition asString (v : value) : string :=
  match v with Some (JStr s) => s | _ => "" end.

Definition asNumber (v : value) : Z :=
  match v with Some (JNum z) => z | _ => 0 end.

(** A parsed JSON object seen at the type [CustomerRegistrationNotification]. *)
Definition asNotification (j : JSON) : CustomerRegistrationNotification :=
  let customer := default JNull (prop "customer_data" j) in
  mkNotification
    (asString (prop "notification_id" j))
    (asString (prop "created_at" j))
    (asNumber (prop "id" customer))
    (asString (prop "name" customer)).

(** The body of [GET /customer-notifications/active] seen at its declared
    type [{ success: boolean; notifications: CustomerRegistrationNotification[] }]:
    [success] is the truth value of [data.success], and [active] is the
    array [data.notifications] when there is one: [None] when the property
    is missing or [null], where [data.notifications] is falsy. A value of
    another type is excluded by the declared type and is read as missing.
    A body that is [null] reads as unsuccessful: the property read throws
    inside the [try] block and the state is left alone. *)
Record ActiveNotifications : Type := mkActive {
  success : bool;
  active : option (list CustomerRegistrationNotification);
}.

Definition asActiveNotifications (data : JSON) : ActiveNotifications :=
  mkActive
    (truthy (prop "success" data))
    (match prop "notifications" data with
     | Some (JArr items) => Some (map asNotification items)
     | _ => None
     end).

(** The two state cells [notifications] and [unreadCount] of a surface. The
    counter is a JavaScript number that only ever holds integers, on which
    [+ 1], [- 1] and [Math.max] are exact. *)
Record Store : Type := mkStore {
  notifications : list CustomerRegistrationNotification;
  unreadCount : Z;
}.

(** [useState([])] and [useState(0)]. *)
Definition initialStore : Store := mkStore [] 0.

(** [setNotifications(f)] and [setUnreadCount(f)] with an updater function;
    [setNotifications(v)] is [setNotifications (fun _ => v)]. *)
Definition setNotifications
  (f : list CustomerRegistrationNotification -> list CustomerRegistrationNotification)
  (s : Store) : Store :=
  mkStore (f (notifications s)) (unreadCount s).

Definition setUnreadCount (f : Z -> Z) (s : Store) : Store :=
  mkStore (notifications s) (f (unreadCount s)).

(** The state once a handler has run as far as it can: the update it
    yielded is applied when the handler got that far, and nothing is
    applied otherwise. *)
Definition settle (run : list FetchCall * outcome (Store -> Store)) (s : Store)
  : Store :=
  match run.2 with
  | Fulfilled update => update s
  | _ => s
  end.

(** [`Bearer ${localStorage.getItem('accessToken')}`]: a missing token
    prints as [null]. *)
Definition bearer (env : Env) : string :=
  "Bearer " +:+ default "null" (accessToken env).

Definition markReadEndpoint (notificationId : string) : string :=
  "/customer-notifications/" +:+ notificationId +:+ "/mark-read".

(** ** The dashboard panel: [CashierDashboard]

    Navigation and the connection flag are outside the store and are left
    out; so are the queue and daily statistics. *)

Module Dashboard.

Definition handleNewNotification (data : CustomerRegistrationNotification)
  (s : Store) : Store :=
  let s' :=
    setNotifications
      (fun prev =>
         let exists_ :=
           Js.some (fun n => bool_decide (notification_id n = notification_id data)) prev in
         if exists_ then prev
         else
           let updated := data :: prev in
           slice 0 10 updated)
      s in
  setUnreadCount (fun prev => prev + 1) s'.

(** [process.env.REACT_APP_API_URL || 'http://localhost:5000/api'] *)
Definition baseUrl (env : Env) : string :=
  match REACT_APP_API_URL env with
  | Some u => if bool_decide (u = "") then "http://localhost:5000/api" else u
  | None => "http://localhost:5000/api"
  end.

Definition authorization (env : Env) : gmap string string :=
  {[ "Authorization" := bearer env ]}.

Definition loadNotifications : Async (Store -> Store) :=
  fun env =>
    tryCatch
      (response <- fetchAsync
                     (mkCall (baseUrl env +:+ "/customer-notifications/active")
                             (mkInit None (HeadersObject (authorization env)) None) None) ;;
       if ok response then
         json <- Api.responseJson response ;;
         let data := asActiveNotifications json in
         match success data, active data with
         | true, Some notifications =>
             ret (fun s =>
                    setUnreadCount (fun _ => Z.of_nat (length notifications))
                      (setNotifications (fun _ => slice 0 10 notifications) s))
         | _, _ => ret (fun s => s)
         end
       else ret (fun s => s))
      (fun error => ret (fun s => s))
      env.

(** A [number] argument: [None] is [NaN]. *)
Definition invalidCustomerId (customerId : option Z) : bool :=
  match customerId with
  | None => true
  | Some c => (c =? 0) || (c <=? 0)
  end.

(** The guard runs first; then the mark-read request is awaited, whatever
    its result; then the notification is removed locally. The [switch] on
    [actionType] only navigates. *)
Definition handleNotificationAction (notificationId : string)
  (customerId : option Z) (actionType : string) : Async (Store -> Store) :=
  fun env =>
    if bool_decide (notificationId = "") || invalidCustomerId customerId
    then ret (fun s => s) env
    else
      (tryCatch
         (fetchAsync
            (mkCall (baseUrl env +:+ markReadEndpoint notificationId)
                    (mkInit (Some "POST") (HeadersObject (authorization env)) None) None) ;;;
          ret tt)
         (fun error => ret tt) ;;;
       ret (fun s =>
              setUnreadCount (fun prev => Z.max 0 (prev - 1))
                (setNotifications
                   (fun prev => filter (fun n => notification_id n ≠ notificationId) prev)
                   s)))
        env.

(** What happens to the panel. *)
Inductive Event : Type :=
| Mounted
| NewNotification (data : CustomerRegistrationNotification)
| Action (notificationId : string) (customerId : option Z) (actionType : string).

Definition step (env : Env) (ev : Event) (s : Store) : Store :=
  match ev with
  | Mounted => settle (loadNotifications env) s
  | NewNotification data => handleNewNotification data s
  | Action notificationId customerId actionType =>
      settle (handleNotificationAction notificationId customerId actionType env) s
  end.

End Dashboard.

(** ** The header bell: [NotificationBell]

    The popover anchor, the selected toast and the connection flag are
    outside the store and are left out, and so is navigation. The effects
    are registered for cashiers only. *)

Module Bell.

Definition handleNewNotification (data : CustomerRegistrationNotification)
  (s : Store) : Store :=
  let s' :=
    setNotifications
      (fun prev =>
         let exists_ :=
           Js.some (fun n => bool_decide (notification_id n = notification_id data)) prev in
         if exists_ then prev
         else
           let updated := data :: prev in
           slice 0 20 updated)
      s in
  setUnreadCount (fun prev => prev + 1) s'.

(** The payload is [{ notificationId }]. *)
Definition handleNotificationRead (notificationId : string) (s : Store) : Store :=
  let s' :=
    setNotifications
      (fun prev => filter (fun n => notification_id n ≠ notificationId) prev) s in
  setUnreadCount (fun prev => Z.max 0 (prev - 1)) s'.

Definition loadNotifications : Async (Store -> Store) :=
  tryCatch
    (response <- Api.authenticatedApiRequest "/customer-notifications/active"
                   (Api.withMethod "GET" None) ;;
     json <- Api.parseApiResponse response ;;
     let data := asActiveNotifications json in
     match success data, active data with
     | true, Some notifications =>
         ret (fun s =>
                setUnreadCount (fun _ => Z.of_nat (length notifications))
                  (setNotifications (fun _ => notifications) s))
     | _, _ => ret (fun s => s)
     end)
    (fun error => ret (fun s => s)).

Definition handleToastAction (actionType : string) (customerId : Z)
  (notificationId : string) : Async (Store -> Store) :=
  tryCatch
    (Api.authenticatedApiRequest (markReadEndpoint notificationId)
       (Api.withMethod "POST" None) ;;;
     ret tt)
    (fun error => ret tt) ;;;
  ret (fun s =>
         setUnreadCount (fun prev => Z.max 0 (prev - 1))
           (setNotifications
              (fun prev => filter (fun n => notification_id n ≠ notificationId) prev)
              s)).

Definition handleToastDismiss (notificationId : string) : Async (Store -> Store) :=
  tryCatch
    (Api.authenticatedApiRequest (markReadEndpoint notificationId)
       (Api.withMethod "POST" None) ;;;
     ret tt)
    (fun error => ret tt) ;;;
  ret (fun s =>
         setUnreadCount (fun prev => Z.max 0 (prev - 1))
           (setNotifications
              (fun prev => filter (fun n => notification_id n ≠ notificationId) prev)
              s)).

(** [notifications] is the list the component rendered with, the one the
    handler closes over. *)
Definition handleMarkAllAsRead (notifications : list CustomerRegistrationNotification)
  : Async (Store -> Store) :=
  tryCatch
    (let promises :=
       map (fun notification =>
              Api.authenticatedApiRequest
                (markReadEndpoint (notification_id notification))
                (Api.withMethod "POST" None))
           notifications in
     all promises ;;;
     ret (fun s => setUnreadCount (fun _ => 0) (setNotifications (fun _ => []) s)))
    (fun error => ret (fun s => s)).

(** What happens to the bell. [MarkAllAsRead] carries the list the bell was
    rendered with when the button was pressed, which is the list the
    handler closes over. *)
Inductive Event : Type :=
| Mounted
| NewNotification (data : CustomerRegistrationNotification)
| NotificationRead (notificationId : string)
| ToastAction (actionType : string) (customerId : Z) (notificationId : string)
| ToastDismiss (notificationId : string)
| MarkAllAsRead (rendered : list CustomerRegistrationNotification).

Definition step (env : Env) (ev : Event) (s : Store) : Store :=
  match ev with
  | Mounted => settle (loadNotifications env) s
  | NewNotification data => handleNewNotification data s
  | NotificationRead notificationId => handleNotificationRead notificationId s
  | ToastAction actionType customerId notificationId =>
      settle (handleToastAction actionType customerId notificationId env) s
  | ToastDismiss notificationId => settle (handleToastDismiss notificationId env) s
  | MarkAllAsRead rendered => settle (handleMarkAllAsRead rendered env) s
  end.

End Bell.

(** A surface's state after a sequence of events, each met in its own
    environment. *)
Definition run {Event : Type} (step : Env -> Event -> Store -> Store)
  (events : list (Env * Event)) (s : Store) : Store :=
  foldl (fun s '(env, ev) => step env ev s) s events.

(** ** The operations of a store, whatever the surface

    These restate what the handlers of the two surfaces do to the store,
    with the capacity as a parameter; the properties below relate each
    handler to them. *)

(** The ids held, in list order. *)
Definition ids (l : list CustomerRegistrationNotification) : list string :=
  map notification_id l.

(** The number of entries of [l] carrying the id [i]. *)
Definition copies (i : string) (l : list CustomerRegistrationNotification) : nat :=
  length (filter (fun n => notification_id n = i) l).

(** Arrival of a pushed notification at a surface of the given capacity. *)
Definition receive (capacity : nat) (data : CustomerRegistrationNotification)
  (s : Store) : Store :=
  mkStore
    (if bool_decide (notification_id data ∈ ids (notifications s))
     then notifications s
     else take capacity (data :: notifications s))
    (unreadCount s + 1).

(** Local removal of the notification with the given id. *)
Definition removeRead (notificationId : string) (s : Store) : Store :=
  mkStore
    (filter (fun n => notification_id n ≠ notificationId) (notifications s))
    (Z.max 0 (unreadCount s - 1)).

(** The store after a sequence of pushed notifications, oldest first. *)
Definition receiveAll (capacity : nat)
  (incoming : list CustomerRegistrationNotification) (s : Store) : Store :=
  foldl (fun s data => receive capacity data s) s incoming.

(** ** The calls of the request client, as the properties name them *)

(** The URL [apiRequest] resolves an endpoint to. *)
Definition resolvedUrl (env : Env) (endpoint : string) : string :=
  if String.prefix "http" endpoint then endpoint
  else API_BASE_URL env +:+ endpoint.

(** The timeout a call is configured with: 10000 ms unless given. *)
Definition configuredTimeout (options : Api.ApiRequestOptions) : Z :=
  default 10000 (Api.timeout options).

(** The network takes longer than [ms] to answer the request, or never
    answers it. *)
Definition takesLongerThan (env : Env) (ms : Z) (requestUrl : string)
  (requestInit : RequestInit) : Prop :=
  match network env requestUrl requestInit with
  | Responds t _ => ms < t
  | Fails t _ => ms < t
  | Hangs => True
  end.

(** The mark-read request the bell sends for a notification id. *)
Definition markReadRequest (notificationId : string) : Async Response :=
  Api.authenticatedApiRequest (markReadEndpoint notificationId)
    (Api.withMethod "POST" None).

(** The [fetch] call behind the bell's mark-read request. *)
Definition markReadCall (env : Env) (notificationId : string) : FetchCall :=
  mkCall (resolvedUrl env (markReadEndpoint notificationId))
    (mkInit (Some "POST")
       (HeadersObject (Api.authHeaders (accessToken env) noHeaders)) None)
    (Some 10000).

(** The [fetch] call behind the dashboard's mark-read request. *)
Definition dashboardMarkReadCall (env : Env) (notificationId : string) : FetchCall :=
  mkCall (Dashboard.baseUrl env +:+ markReadEndpoint notificationId)
    (mkInit (Some "POST") (HeadersObject (Dashboard.authorization env)) None)
    None.


(** ** Sample data *)

Definition sample (i : string) : CustomerRegistrationNotification :=
  mkNotification i "2024-05-01T08:00:00.000Z" 7 "Ana Cruz".

Definition sampleJson (i : string) : JSON :=
  JObj [("notification_id", JStr i);
        ("created_at", JStr "2024-05-01T08:00:00.000Z");
        ("customer_data", JObj [("id", JNum 7); ("name", JStr "Ana Cruz")])].

(** The ids [n1], ..., [nk]. *)
Definition numbered (k : nat) : list string :=
  map (fun i : nat => "n" +:+ pretty i) (seq 1 k).

(** The way [response.json()] settles on a body that is not JSON. *)
Definition notJson : outcome JSON := Rejected (PlatformError "SyntaxError").

(** A successful snapshot of [k] notifications. *)
Definition snapshotOf (k : nat) : Response :=
  mkResponse 200 "OK"
    (Fulfilled (JObj [("success", JBool true);
                      ("notifications", JArr (map sampleJson (numbered k)))])).

(** A backend that gives the same answer to every request after 20 ms. *)
Definition answering (r : Response) : Env :=
  mkEnv None "http://localhost:5000/api" (Some "token-1")
    (fun _ _ => Responds 20 r).

(** No connectivity: every request fails after 5 ms. *)
Definition offline : Env :=
  mkEnv None "http://localhost:5000/api" (Some "token-1")
    (fun _ _ => Fails 5 (ErrorObj "TypeError" "Failed to fetch")).

(** A backend that never answers. *)
Definition silent : Env :=
  mkEnv None "http://localhost:5000/api" (Some "token-1") (fun _ _ => Hangs).

(** A page without a stored token. *)
Definition signedOut : Env :=
  mkEnv None "http://localhost:5000/api" None
    (fun _ _ => Responds 20 (mkResponse 401 "Unauthorized" notJson)).

Definition noContent : Response := mkResponse 200 "OK" (Fulfilled (JObj [])).

Definition serverError : Response :=
  mkResponse 500 "Internal Server Error" notJson.

Definition twoHeld : Store := mkStore [sample "a"; sample "b"] 2.

(** ** The base URL of [utils/api.ts] *)

(** [s.endsWith(suffix)]. *)
Definition endsWith (suffix s : string) : bool :=
  let n := String.length s in
  let m := String.length suffix in
  (m <=? n)%nat && bool_decide (String.substring (n - m) m s = suffix).

(** The module-level computation of [API_BASE_URL] from
    [process.env.REACT_APP_API_URL]; [trim] is [String.prototype.trim]. *)
Definition apiBaseUrl (trim : string -> string) (envUrl : option string) : string :=
  match envUrl with
  | Some v =>
      if bool_decide (v = "") then "http://localhost:5000/api"
      else
        let baseUrl := trim v in
        if endsWith "/api" baseUrl then baseUrl
        else if endsWith "/" baseUrl then baseUrl +:+ "api"
             else baseUrl +:+ "/api"
  | None => "http://localhost:5000/api"
  end.

(** ** The rest of the dashboard panel: statistics and relative times *)

Module Panel.

(** [formatTimeAgo]: [now] is [new Date().getTime()] and [time] is
    [new Date(timestamp).getTime()], both in ms, [None] being the [NaN] of a
    timestamp that does not parse. [Math.floor] of a quotient is [Z.div].
    With [NaN] every comparison is false and the last branch prints it. *)
Definition formatTimeAgo (now : Z) (time : option Z) : string :=
  match time with
  | None => "NaN" +:+ "d ago"
  | Some t =>
      let diffMs := now - t in
      let diffMins := diffMs / 60000 in
      if diffMins <? 1 then "Just now"
      else if diffMins <? 60 then pretty diffMins +:+ "m ago"
      else
        let diffHours := diffMins / 60 in
        if diffHours <? 24 then pretty diffHours +:+ "h ago"
        else
          let diffDays := diffHours / 24 in
          pretty diffDays +:+ "d ago"
  end.

(** The own enumerable properties an object spread [{...v}] copies: those
    of an object, the indexed elements of an array, the indexed characters
    of a string, and nothing for [null], a number or a boolean. *)
Definition ownProps (v : JSON) : list (string * JSON) :=
  match v with
  | JObj fields => fields
  | JArr items => imap (fun (i : nat) x => (pretty i, x)) items
  | JStr s =>
      imap (fun (i : nat) c => (pretty i, JStr (String c EmptyString)))
        (String.list_ascii_of_string s)
  | _ => []
  end.

(** [useState({ totalWaiting: 0, priorityCustomers: 0, averageWaitTime: 0 })] *)
Definition initialQueueStats : JSON :=
  JObj [("totalWaiting", JNum 0); ("priorityCustomers", JNum 0);
        ("averageWaitTime", JNum 0)].

(** [setQueueStats(prev => ({ ...prev, ...data }))]: a key of [data] hides
    the same key of [prev]. *)
Definition handleQueueUpdate (data : JSON) (prev : JSON) : JSON :=
  JObj (ownProps data ++ ownProps prev).

Definition loadQueueStats : Async (JSON -> JSON) :=
  fun env =>
    tryCatch
      (response <- fetchAsync
                     (mkCall (Dashboard.baseUrl env +:+ "/queue/stats")
                             (mkInit None (HeadersObject (Dashboard.authorization env)) None) None) ;;
       if ok response then
         data <- Api.responseJson response ;;
         ret (fun _ => data)
       else ret (fun stats => stats))
      (fun error => ret (fun stats => stats))
      env.

Record DailyStats : Type := mkDaily {
  transactionsToday : JSON;
  totalAmount : JSON;
  paidTransactions : JSON;
  unpaidTransactions : JSON;
  registeredCustomers : JSON;
}.

Definition initialDailyStats : DailyStats :=
  mkDaily (JNum 0) (JNum 0) (JNum 0) (JNum 0) (JNum 0).

(** [v || 0] *)
Definition orZero (v : value) : JSON :=
  match v with
  | Some j => if truthy v then j else JNum 0
  | None => JNum 0
  end.

(** [today] is [new Date().toISOString().split('T')[0]]. Reading a field of
    a [null] body throws inside the [try] block. *)
Definition loadDailyStats (today : string) : Async (DailyStats -> DailyStats) :=
  fun env =>
    tryCatch
      (response <- fetchAsync
                     (mkCall (Dashboard.baseUrl env
                              +:+ "/transactions/reports/daily?date=" +:+ today)
                             (mkInit None (HeadersObject (Dashboard.authorization env)) None) None) ;;
       if ok response then
         data <- Api.responseJson response ;;
         match data with
         | JNull =>
             throw (PlatformError "TypeError")
         | _ =>
             ret (fun _ =>
                    mkDaily (orZero (prop "totalTransactions" data))
                            (orZero (prop "totalAmount" data))
                            (orZero (prop "paidTransactions" data))
                            (orZero (prop "unpaidTransactions" data))
                            (orZero (prop "registeredCustomers" data)))
         end
       else ret (fun stats => stats))
      (fun error => ret (fun stats => stats))
      env.

(** The state once a statistics loader has run as far as it can. *)
Definition settled {S : Type} (run : list FetchCall * outcome (S -> S)) (s : S) : S :=
  match run.2 with
  | Fulfilled update => update s
  | _ => s
  end.

End Panel.

(** ** The rest of the bell: the popover and the selected toast *)

Module BellView.

(** [anchorEl] (only whether it is set, which is [isOpen]) and
    [selectedNotification]. *)
Record View : Type := mkView {
  isOpen : bool;
  selectedNotification : option CustomerRegistrationNotification;
}.

Definition initialView : View := mkView false None.

Definition handleBellClick (v : View) : View :=
  mkView true (selectedNotification v).

Definition handleClose (v : View) : View :=
  mkView false (selectedNotification v).

(** [notifications] is the list the bell was rendered with. *)
Definition handleNotificationClick
  (notifications : list CustomerRegistrationNotification)
  (notificationId : string) (customerId : Z) (v : View) : View :=
  match List.find (fun n => bool_decide (notification_id n = notificationId))
          notifications with
  | None => v
  | Some notification =>
      let v' := handleClose v in
      mkView (isOpen v') (Some notification)
  end.

End BellView.

(** ** The live channel: listeners, subscriptions and the connection flag *)

Module Channel.

Inductive Surface : Type := DashboardSurface | BellSurface.

Inductive Handler : Type :=
| HandleConnect
| HandleDisconnect
| HandleNewNotification
| HandleQueueUpdate
| HandleNotificationRead.

(** A listener is a function object: every run of an effect creates its
    own handlers, told apart here by the number of the run. *)
Record Listener : Type := mkListener {
  surface : Surface;
  effectRun : nat;
  handler : Handler;
}.

#[global] Instance Surface_eq_dec : EqDecision Surface.
Proof. solve_decision. Defined.

#[global] Instance Handler_eq_dec : EqDecision Handler.
Proof. solve_decision. Defined.

#[global] Instance Listener_eq_dec : EqDecision Listener.
Proof. solve_decision. Defined.

(** The socket: its [connected] flag, the listeners registered with [on],
    in registration order, and the messages sent with [emit]. *)
Record Socket : Type := mkSocket {
  connected : bool;
  listeners : list (string * Listener);
  emitted : list string;
}.

(** [socket.on(event, listener)] *)
Definition on (event : string) (l : Listener) (s : Socket) : Socket :=
  mkSocket (connected s) (listeners s ++ [(event, l)]) (emitted s).

Fixpoint removeFirst (x : string * Listener) (ls : list (string * Listener))
  : list (string * Listener) :=
  match ls with
  | [] => []
  | y :: rest => if decide (y = x) then rest else y :: removeFirst x rest
  end.

(** [socket.off(event, listener)]: the first registration of that listener
    for that event is removed. *)
Definition off (event : string) (l : Listener) (s : Socket) : Socket :=
  mkSocket (connected s) (removeFirst (event, l) (listeners s)) (emitted s).

(** [socket.emit(message)] *)
Definition emit (message : string) (s : Socket) : Socket :=
  mkSocket (connected s) (listeners s) (emitted s ++ [message]).

(** A mounted component: the socket it shares and its own [isConnected]. *)
Record Link : Type := mkLink {
  socket : Socket;
  isConnected : bool;
}.

(** The dashboard's [handleConnect] and [handleDisconnect]. *)
Definition dashboardHandleConnect (k : Link) : Link :=
  mkLink
    (emit "subscribe:queue_updates"
       (emit "subscribe:customer_registration_notifications" (socket k)))
    true.

Definition dashboardHandleDisconnect (k : Link) : Link :=
  mkLink (socket k) false.

(** The bell's [handleConnect] and [handleDisconnect]. *)
Definition bellHandleConnect (k : Link) : Link :=
  mkLink (emit "subscribe:customer_registration_notifications" (socket k)) true.

Definition bellHandleDisconnect (k : Link) : Link :=
  mkLink (socket k) false.

(** The dashboard's connection effect, for a socket that is there (the
    effect returns at once without one), and the cleanup it returns. *)
Definition dashboardConnectionEffect (run : nat) (k : Link) : Link :=
  let s1 := on "connect" (mkListener DashboardSurface run HandleConnect) (socket k) in
  let s2 := on "disconnect" (mkListener DashboardSurface run HandleDisconnect) s1 in
  if connected s2 then dashboardHandleConnect (mkLink s2 (isConnected k))
  else mkLink s2 (isConnected k).

Definition dashboardConnectionCleanup (run : nat) (s : Socket) : Socket :=
  off "disconnect" (mkListener DashboardSurface run HandleDisconnect)
    (off "connect" (mkListener DashboardSurface run HandleConnect) s).

(** The dashboard's notification effect and its cleanup. *)
Definition dashboardNotificationEffect (run : nat) (s : Socket) : Socket :=
  on "queue_stats_update" (mkListener DashboardSurface run HandleQueueUpdate)
    (on "new_customer_registration_notification"
       (mkListener DashboardSurface run HandleNewNotification) s).

Definition dashboardNotificationCleanup (run : nat) (s : Socket) : Socket :=
  off "queue_stats_update" (mkListener DashboardSurface run HandleQueueUpdate)
    (off "new_customer_registration_notification"
       (mkListener DashboardSurface run HandleNewNotification) s).

(** The bell's effects; they return at once unless the user is a cashier
    ([isEnabled]), and then there is no cleanup either. *)
Definition bellConnectionEffect (isEnabled : bool) (run : nat) (k : Link) : Link :=
  if negb isEnabled then k
  else
    let s1 := on "connect" (mkListener BellSurface run HandleConnect) (socket k) in
    let s2 := on "disconnect" (mkListener BellSurface run HandleDisconnect) s1 in
    if connected s2 then bellHandleConnect (mkLink s2 (isConnected k))
    else mkLink s2 (isConnected k).

Definition bellConnectionCleanup (isEnabled : bool) (run : nat) (s : Socket) : Socket :=
  if negb isEnabled then s
  else
    off "disconnect" (mkListener BellSurface run HandleDisconnect)
      (off "connect" (mkListener BellSurface run HandleConnect) s).

Definition bellNotificationEffect (isEnabled : bool) (run : nat) (s : Socket) : Socket :=
  if negb isEnabled then s
  else
    on "customer_notification_marked_read"
      (mkListener BellSurface run HandleNotificationRead)
      (on "new_customer_registration_notification"
         (mkListener BellSurface run HandleNewNotification) s).

Definition bellNotificationCleanup (isEnabled : bool) (run : nat) (s : Socket) : Socket :=
  if negb isEnabled then s
  else
    off "customer_notification_marked_read"
      (mkListener BellSurface run HandleNotificationRead)
      (off "new_customer_registration_notification"
         (mkListener BellSurface run HandleNewNotification) s).

(** What calling one listener does to the component [me] (a surface and the
    run of its effect) and to the socket: a connect handler sends its
    surface's subscriptions, and a connect or disconnect handler sets the
    flag of the component that owns it. The other handlers act on the
    store, not on the link. *)
Definition call (me : Surface * nat) (l : Listener) (k : Link) : Link :=
  let mine := bool_decide ((surface l, effectRun l) = me) in
  match handler l, surface l with
  | HandleConnect, DashboardSurface =>
      let k' := dashboardHandleConnect k in
      mkLink (socket k') (if mine then isConnected k' else isConnected k)
  | HandleConnect, BellSurface =>
      let k' := bellHandleConnect k in
      mkLink (socket k') (if mine then isConnected k' else isConnected k)
  | HandleDisconnect, DashboardSurface =>
      if mine then dashboardHandleDisconnect k else k
  | HandleDisconnect, BellSurface =>
      if mine then bellHandleDisconnect k else k
  | _, _ => k
  end.

(** The listeners the socket calls for an event, in registration order. *)
Definition listening (event : string) (s : Socket) : list Listener :=
  map snd (filter (fun p => p.1 = event) (listeners s)).

(** The socket connects or disconnects: its flag changes, then the
    listeners of the event are called in turn. *)
Definition deliver (me : Surface * nat) (event : string) (k : Link) : Link :=
  let flag :=
    if bool_decide (event = "connect") then true
    else if bool_decide (event = "disconnect") then false
         else connected (socket k) in
  let s := mkSocket flag (listeners (socket k)) (emitted (socket k)) in
  foldl (fun k l => call me l k) (mkLink s (isConnected k)) (listening event s).

End Channel.

(** ** Notions and sample data for the further properties *)

(** A deployment whose [REACT_APP_API_URL] names the host only. *)
Definition bareHost : Env :=
  mkEnv (Some "http://10.0.0.5:5000") "http://10.0.0.5:5000/api" (Some "token-1")
    (fun _ _ => Responds 20 noContent).

(** Every snapshot the environment's backend serves lists each id once. *)
Definition servesUniqueIds (env : Env) : Prop :=
  forall requestUrl requestInit ms response body l,
    network env requestUrl requestInit = Responds ms response ->
    json response = Fulfilled body ->
    active (asActiveNotifications body) = Some l ->
    NoDup (ids l).

(** A daily statistic that can be displayed: a truthy value or the number
    zero, never [undefined], [null], [false] or the empty string. *)
Definition displayable (v : JSON) : Prop :=
  truthy (Some v) = true \/ v = JNum 0.

Definition allDisplayable (d : Panel.DailyStats) : Prop :=
  displayable (Panel.transactionsToday d)
  /\ displayable (Panel.totalAmount d)
  /\ displayable (Panel.paidTransactions d)
  /\ displayable (Panel.unpaidTransactions d)
  /\ displayable (Panel.registeredCustomers d).

(** A backend that answers every request with the given body. *)
Definition serving (body : JSON) : Env :=
  answering (mkResponse 200 "OK" (Fulfilled body)).

(** The subscription messages of each surface. *)
Definition dashboardTopics : list string :=
  ["subscribe:customer_registration_notifications"; "subscribe:queue_updates"].

Definition bellTopics : list string :=
  ["subscribe:customer_registration_notifications"].

(** No listener created by the given run of a surface's effects is
    registered on the socket. *)
Definition freshFor (sf : Channel.Surface) (run : nat) (s : Channel.Socket) : Prop :=
  forall event h, (event, Channel.mkListener sf run h) ∉ Channel.listeners s.

(** The socket goes through a sequence of events. *)
Definition deliverAll (me : Channel.Surface * nat) (events : list string)
  (k : Channel.Link) : Channel.Link :=
  foldl (fun k event => Channel.deliver me event k) k events.

(** The connection state a sequence of events leaves. *)
Definition connectionAfter (events : list string) (start : bool) : bool :=
  foldl (fun b event =>
           if bool_decide (event = "connect") then true
           else if bool_decide (event = "disconnect") then false else b)
        start events.

(** The subscription messages a surface sends over a sequence of events:
    its topics once for every connect. *)
Definition subscriptionsOver (topics : list string) (events : list string)
  : list string :=
  concat (map (fun event => if bool_decide (event = "connect") then topics else [])
              events).

(** * Properties *)

(** ** Arrays *)

Section Arrays.
Context {A : Type}.
Implicit Types l k : list A.

Lemma slice_prefix (n : Z) l : 0 <= n -> slice 0 n l = take (Z.to_nat n) l.
Proof.
  intros Hn. unfold slice, relativeIndex.
  replace (0 <? 0) with false by reflexivity.
  replace (n <? 0) with false by (symmetry; apply Z.ltb_ge; lia).
  rewrite (Z.min_l 0) by lia. rewrite Z.sub_0_r.
  change (Z.to_nat 0) with 0%nat. rewrite drop_0.
  destruct (Z.le_ge_cases n (Z.of_nat (length l))) as [H|H].
  - by rewrite Z.min_l.
  - rewrite Z.min_r by lia. rewrite Nat2Z.id, firstn_all.
    symmetry. apply take_ge. lia.
Qed.

Lemma some_Exists (p : A -> bool) l :
  some p l = true <-> Exists (fun x => p x = true) l.
Proof.
  unfold some. rewrite existsb_exists, Exists_exists.
  split; intros (x & Hx & Hp); exists x; split; auto; by apply list_elem_of_In.
Qed.

Lemma take_app_take (n : nat) l k : take n (l ++ take n k) = take n (l ++ k).
Proof.
  rewrite !take_app, take_take. f_equal. f_equal. lia.
Qed.

Lemma elem_of_take_elem (x : A) (n : nat) l : x ∈ take n l -> x ∈ l.
Proof.
  rewrite elem_of_take. intros (i & Hi & _). by eapply list_elem_of_lookup_2.
Qed.

End Arrays.

(** ** The store, independently of the surface *)

Lemma ids_take (n : nat) l : ids (take n l) = take n (ids l).
Proof. unfold ids. by rewrite firstn_map. Qed.

Lemma some_same_id data l :
  some (fun n => bool_decide (notification_id n = notification_id data)) l
  = bool_decide (notification_id data ∈ ids l).
Proof.
  apply eq_true_iff_eq. rewrite some_Exists, bool_decide_eq_true.
  unfold ids. rewrite list_elem_of_fmap, Exists_exists.
  split.
  - intros (n & Hn & Heq). apply bool_decide_eq_true in Heq. by exists n.
  - intros (n & Heq & Hn). exists n. split; [done|]. by apply bool_decide_eq_true.
Qed.

Lemma copies_zero i l : copies i l = 0%nat <-> i ∉ ids l.
Proof.
  unfold copies, ids. induction l as [|n l IH]; simpl.
  - split; [intros _; apply not_elem_of_nil | done].
  - rewrite filter_cons, not_elem_of_cons. destruct (decide (notification_id n = i)); simpl.
    + split; [lia | intros [? _]; congruence].
    + rewrite IH. split; [intros ?; split; congruence | tauto].
Qed.

Lemma copies_take_le i (k : nat) l : (copies i (take k l) <= copies i l)%nat.
Proof.
  unfold copies. rewrite <- (take_drop k l) at 2. rewrite filter_app, length_app. lia.
Qed.

Lemma copies_NoDup i l : NoDup (ids l) -> (copies i l <= 1)%nat.
Proof.
  induction l as [|n l IH]; intros Hnd.
  - unfold copies. simpl. lia.
  - change (ids (n :: l)) with (notification_id n :: ids l) in Hnd.
    apply NoDup_cons in Hnd as [Hn Hnd]. specialize (IH Hnd).
    unfold copies in *. rewrite filter_cons.
    destruct (decide (notification_id n = i)) as [<-|]; simpl; [|lia].
    apply copies_zero in Hn. unfold copies in Hn. lia.
Qed.

Section Capacity.
Variable capacity : nat.

Lemma receive_held data s :
  notification_id data ∈ ids (notifications s) ->
  receive capacity data s = mkStore (notifications s) (unreadCount s + 1).
Proof. intros H. unfold receive. by rewrite bool_decide_eq_true_2. Qed.

Lemma receive_fresh data s :
  notification_id data ∉ ids (notifications s) ->
  receive capacity data s
  = mkStore (take capacity (data :: notifications s)) (unreadCount s + 1).
Proof. intros H. unfold receive. by rewrite bool_decide_eq_false_2. Qed.

(** Receiving a run of notifications that are new to the store and to each
    other stacks them, newest first, and keeps the first [capacity]. *)
Lemma receive_all_fresh (incoming : list CustomerRegistrationNotification) :
  forall s,
    incoming <> [] ->
    NoDup (ids incoming) ->
    (forall i, i ∈ ids incoming -> i ∉ ids (notifications s)) ->
    receiveAll capacity incoming s
    = mkStore (take capacity (rev incoming ++ notifications s))
              (unreadCount s + Z.of_nat (length incoming)).
Proof.
  induction incoming as [|data incoming IH]; intros s Hne Hnd Hfresh; [done|].
  clear Hne. unfold receiveAll in *. simpl foldl.
  assert (Hdata : notification_id data ∉ ids (notifications s))
    by (apply Hfresh; simpl; apply list_elem_of_here).
  rewrite (receive_fresh _ _ Hdata).
  simpl in Hnd. apply NoDup_cons in Hnd as [Hnew Hnd].
  destruct incoming as [|data' incoming'].
  - reflexivity.
  - rewrite IH; [| done | done |].
    + simpl notifications. simpl unreadCount. f_equal.
      * rewrite take_app_take. simpl rev. by rewrite <- !app_assoc.
      * simpl length. lia.
    + intros i Hi. simpl notifications. rewrite ids_take.
      intros Hin%elem_of_take_elem. simpl in Hin.
      apply elem_of_cons in Hin as [->|Hin]; [done|].
      revert Hin. apply Hfresh. simpl. by apply list_elem_of_further.
Qed.

End Capacity.

Lemma receive_twice capacity data s :
  notifications (receive capacity data (receive capacity data s))
  = notifications (receive capacity data s).
Proof.
  destruct (decide (notification_id data ∈ ids (notifications s))) as [Hin|Hout].
  - rewrite (receive_held _ _ s Hin). by rewrite receive_held.
  - rewrite (receive_fresh _ _ s Hout). destruct capacity as [|c].
    + by rewrite receive_fresh by apply not_elem_of_nil.
    + rewrite receive_held; [done|]. simpl. apply list_elem_of_here.
Qed.

Lemma receive_copies capacity data s :
  (0 < capacity)%nat ->
  (copies (notification_id data) (notifications s) <= 1)%nat ->
  copies (notification_id data) (notifications (receive capacity data s)) = 1%nat.
Proof.
  intros Hcap Hle.
  destruct (decide (notification_id data ∈ ids (notifications s))) as [Hin|Hout].
  - rewrite (receive_held _ _ s Hin). simpl.
    destruct (copies (notification_id data) (notifications s)) as [|k] eqn:Hk; [|lia].
    by apply copies_zero in Hk.
  - rewrite (receive_fresh _ _ s Hout). simpl.
    destruct capacity as [|c]; [lia|]. simpl take.
    unfold copies. rewrite filter_cons_True by done. simpl. f_equal.
    apply copies_zero in Hout.
    pose proof (copies_take_le (notification_id data) c (notifications s)) as Hc.
    unfold copies in *. lia.
Qed.

Lemma receive_evicts_last capacity data s :
  notification_id data ∉ ids (notifications s) ->
  length (notifications s) = capacity ->
  (0 < capacity)%nat ->
  notifications (receive capacity data s) = data :: removelast (notifications s).
Proof.
  intros Hout Hlen Hcap. rewrite (receive_fresh _ _ s Hout). simpl.
  destruct capacity as [|c]; [lia|]. simpl. f_equal.
  rewrite removelast_firstn_len, Hlen. reflexivity.
Qed.

Lemma receive_overflow capacity incoming s :
  NoDup (ids incoming) ->
  (forall i, i ∈ ids incoming -> i ∉ ids (notifications s)) ->
  (capacity < length incoming)%nat ->
  notifications (receiveAll capacity incoming s)
  = rev (drop (length incoming - capacity) incoming).
Proof.
  intros Hnd Hfresh Hlen.
  rewrite receive_all_fresh; [| by destruct incoming; simpl in *; [lia|] | done | done].
  simpl. rewrite take_app_le by (rewrite length_rev; lia). apply firstn_rev.
Qed.

(** ** Each surface against the store operations *)

Lemma Dashboard_receive data s :
  Dashboard.handleNewNotification data s = receive 10 data s.
Proof.
  unfold Dashboard.handleNewNotification, receive, setNotifications, setUnreadCount.
  simpl. rewrite some_same_id, slice_prefix by lia. reflexivity.
Qed.

Lemma Bell_receive data s :
  Bell.handleNewNotification data s = receive 20 data s.
Proof.
  unfold Bell.handleNewNotification, receive, setNotifications, setUnreadCount.
  simpl. rewrite some_same_id, slice_prefix by lia. reflexivity.
Qed.

Lemma Dashboard_receiveAll incoming s :
  foldl (fun s data => Dashboard.handleNewNotification data s) s incoming
  = receiveAll 10 incoming s.
Proof.
  unfold receiveAll. revert s.
  induction incoming as [|d l IH]; intros s; simpl; [done|].
  by rewrite Dashboard_receive, IH.
Qed.

Lemma Bell_receiveAll incoming s :
  foldl (fun s data => Bell.handleNewNotification data s) s incoming
  = receiveAll 20 incoming s.
Proof.
  unfold receiveAll. revert s.
  induction incoming as [|d l IH]; intros s; simpl; [done|].
  by rewrite Bell_receive, IH.
Qed.

Lemma Bell_read notificationId s :
  Bell.handleNotificationRead notificationId s = removeRead notificationId s.
Proof. reflexivity. Qed.

(** Tactic for the handlers that await: expose every way the awaited
    promises can settle. *)
Ltac settle_cases :=
  unfold settle, tryCatch, bind, fetchAsync, fetch, Api.responseJson, ret, throw;
  simpl;
  repeat case_match; simplify_eq/=.

Lemma Dashboard_load_cases env s :
  settle (Dashboard.loadNotifications env) s = s
  \/ exists l,
      settle (Dashboard.loadNotifications env) s
      = mkStore (take 10 l) (Z.of_nat (length l)).
Proof.
  unfold Dashboard.loadNotifications. settle_cases; eauto.
  all: right; eexists; unfold setUnreadCount, setNotifications; simpl;
    rewrite slice_prefix by lia; reflexivity.
Qed.

Lemma Dashboard_action_cases notificationId customerId actionType env s :
  let after := settle (Dashboard.handleNotificationAction notificationId customerId actionType env) s in
  after = s \/ after = removeRead notificationId s.
Proof.
  unfold Dashboard.handleNotificationAction. settle_cases; eauto.
Qed.

(** ** The request client *)

Lemma apiRequest_calls endpoint options env :
  (Api.apiRequest endpoint options env).1
  = [mkCall (resolvedUrl env endpoint) (Api.fetchOptions options)
       (Some (timerDelay (configuredTimeout options)))].
Proof.
  unfold Api.apiRequest, resolvedUrl, configuredTimeout.
  settle_cases; reflexivity.
Qed.

(** The abort timer makes every call of the client settle. *)
Lemma apiRequest_settles endpoint options env :
  (Api.apiRequest endpoint options env).2 <> Pending.
Proof.
  unfold Api.apiRequest. settle_cases; congruence.
Qed.

Lemma authenticated_calls endpoint options env :
  (Api.authenticatedApiRequest endpoint options env).1
  = [mkCall (resolvedUrl env endpoint)
       (mkInit (method (Api.fetchOptions options))
          (HeadersObject
             (Api.authHeaders (accessToken env) (headers (Api.fetchOptions options))))
          (body (Api.fetchOptions options)))
       (Some (timerDelay (configuredTimeout options)))].
Proof.
  unfold Api.authenticatedApiRequest. by rewrite apiRequest_calls.
Qed.

Lemma authenticated_settles endpoint options env :
  (Api.authenticatedApiRequest endpoint options env).2 <> Pending.
Proof.
  unfold Api.authenticatedApiRequest. apply apiRequest_settles.
Qed.

(** An answer that arrives before the abort timer fires is handed to the
    caller, whatever its HTTP status. *)
Lemma apiRequest_fulfilled endpoint options env ms response :
  network env (resolvedUrl env endpoint) (Api.fetchOptions options)
  = Responds ms response ->
  ms <= timerDelay (configuredTimeout options) ->
  (Api.apiRequest endpoint options env).2 = Fulfilled response.
Proof.
  intros Hnet Hms.
  unfold Api.apiRequest, tryCatch, bind, fetchAsync, fetch. simpl.
  fold (resolvedUrl env endpoint). fold (configuredTimeout options).
  rewrite Hnet.
  replace (timerDelay (configuredTimeout options) <? ms) with false
    by (symmetry; apply Z.ltb_ge; lia).
  reflexivity.
Qed.

Lemma authenticated_fulfilled endpoint options env ms response :
  network env (resolvedUrl env endpoint)
    (mkInit (method (Api.fetchOptions options))
       (HeadersObject
          (Api.authHeaders (accessToken env) (headers (Api.fetchOptions options))))
       (body (Api.fetchOptions options)))
  = Responds ms response ->
  ms <= timerDelay (configuredTimeout options) ->
  (Api.authenticatedApiRequest endpoint options env).2 = Fulfilled response.
Proof.
  intros Hnet Hms. unfold Api.authenticatedApiRequest.
  by apply (apiRequest_fulfilled _ _ _ ms).
Qed.

(** ** Reading a response *)

Lemma errorMessage_run response env :
  exists o, Api.errorMessage response env = ([], o) /\ forall e, o <> Rejected e.
Proof.
  unfold Api.errorMessage, tryCatch, bind, Api.responseJson, ret, throw.
  destruct (json response) as [[]|e|]; simpl; eexists; (split; [reflexivity|]);
    congruence.
Qed.

Lemma handleApiError_calls {A : Type} response env :
  (@Api.handleApiError A response env).1 = [].
Proof.
  unfold Api.handleApiError, bind.
  destruct (errorMessage_run response env) as (o & -> & _).
  by destruct o.
Qed.

(** [handleApiError] never returns: it throws, unless the body it reads
    never ends. *)
Lemma handleApiError_not_fulfilled {A : Type} response env (a : A) :
  (Api.handleApiError response env).2 <> Fulfilled a.
Proof.
  unfold Api.handleApiError, bind.
  destruct (errorMessage_run response env) as (o & -> & _).
  by destruct o.
Qed.

Lemma parseApiResponse_ok response env :
  ok response = true ->
  Api.parseApiResponse response env = ([], json response).
Proof.
  intros Hok. unfold Api.parseApiResponse, bind, ret, Api.responseJson.
  rewrite Hok. simpl. by destruct (json response).
Qed.

Lemma parseApiResponse_calls response env :
  (Api.parseApiResponse response env).1 = [].
Proof.
  destruct (ok response) eqn:Hok; [by rewrite parseApiResponse_ok|].
  unfold Api.parseApiResponse. rewrite Hok. simpl.
  pose proof (@handleApiError_calls unit response env) as Hcalls.
  unfold bind. destruct (Api.handleApiError response env) as [calls [[]|e|]];
    simpl in *; by subst.
Qed.

Lemma parseApiResponse_fulfilled response env data :
  (Api.parseApiResponse response env).2 = Fulfilled data
  <-> ok response = true /\ json response = Fulfilled data.
Proof.
  destruct (ok response) eqn:Hok.
  - rewrite parseApiResponse_ok by done. simpl. split; [by intros ->|by intros [_ ->]].
  - split; [|by intros [? _]].
    unfold Api.parseApiResponse. rewrite Hok. simpl.
    pose proof (@handleApiError_not_fulfilled unit response env tt) as Hnot.
    unfold bind. destruct (Api.handleApiError response env) as [calls [[]|e|]];
      simpl in *; done.
Qed.

(** ** The bell's handlers *)

Lemma Bell_load_cases env s :
  settle (Bell.loadNotifications env) s = s
  \/ exists l,
      settle (Bell.loadNotifications env) s = mkStore l (Z.of_nat (length l)).
Proof.
  unfold Bell.loadNotifications, settle, tryCatch, bind.
  destruct (Api.authenticatedApiRequest _ _ env) as [calls [response|e|]];
    simpl; eauto.
  destruct (Api.parseApiResponse response env) as [calls' [data|e|]];
    simpl; eauto.
  unfold ret. repeat case_match; simplify_eq/=; eauto.
Qed.

Lemma await_mark_read notificationId env :
  exists calls,
    tryCatch (markReadRequest notificationId ;;; ret tt) (fun _ => ret tt) env
    = (calls, Fulfilled tt).
Proof.
  unfold tryCatch, bind, markReadRequest.
  pose proof (authenticated_settles (markReadEndpoint notificationId)
                (Api.withMethod "POST" None) env) as Hs.
  destruct (Api.authenticatedApiRequest _ _ env) as [calls [response|e|]];
    simpl in *; [eauto | eauto | done].
Qed.

Lemma Bell_toast_action actionType customerId notificationId env s :
  settle (Bell.handleToastAction actionType customerId notificationId env) s
  = removeRead notificationId s.
Proof.
  unfold Bell.handleToastAction, settle.
  destruct (await_mark_read notificationId env) as [calls Hrun].
  unfold markReadRequest in Hrun. unfold bind at 1. rewrite Hrun. reflexivity.
Qed.

Lemma Bell_toast_dismiss notificationId env s :
  settle (Bell.handleToastDismiss notificationId env) s
  = removeRead notificationId s.
Proof.
  unfold Bell.handleToastDismiss, settle.
  destruct (await_mark_read notificationId env) as [calls Hrun].
  unfold markReadRequest in Hrun. unfold bind at 1. rewrite Hrun. reflexivity.
Qed.

Lemma Bell_mark_all_cases held env s :
  settle (Bell.handleMarkAllAsRead held env) s = s
  \/ settle (Bell.handleMarkAllAsRead held env) s = mkStore [] 0.
Proof.
  unfold Bell.handleMarkAllAsRead, settle, tryCatch, bind, all, ret. simpl.
  destruct (promiseAll _); simpl; eauto.
Qed.

(** ** The unread counter never goes below zero *)

Lemma removeRead_nonneg notificationId s : 0 <= unreadCount (removeRead notificationId s).
Proof. simpl. lia. Qed.

Lemma Dashboard_step_nonneg env ev s :
  0 <= unreadCount s -> 0 <= unreadCount (Dashboard.step env ev s).
Proof.
  intros Hs. destruct ev as [|data|notificationId customerId actionType];
    unfold Dashboard.step.
  - destruct (Dashboard_load_cases env s) as [->|[l ->]]; simpl; lia.
  - rewrite Dashboard_receive. simpl. lia.
  - destruct (Dashboard_action_cases notificationId customerId actionType env s)
      as [->| ->]; [done | apply removeRead_nonneg].
Qed.

Lemma Bell_step_nonneg env ev s :
  0 <= unreadCount s -> 0 <= unreadCount (Bell.step env ev s).
Proof.
  intros Hs.
  destruct ev as [|data|notificationId|actionType customerId notificationId
                  |notificationId|rendered];
    unfold Bell.step.
  - destruct (Bell_load_cases env s) as [->|[l ->]]; simpl; lia.
  - rewrite Bell_receive. simpl. lia.
  - rewrite Bell_read. apply removeRead_nonneg.
  - rewrite Bell_toast_action. apply removeRead_nonneg.
  - rewrite Bell_toast_dismiss. apply removeRead_nonneg.
  - destruct (Bell_mark_all_cases rendered env s) as [->| ->]; simpl; lia.
Qed.

Lemma run_invariant {Event : Type} (step : Env -> Event -> Store -> Store)
  (P : Store -> Prop) :
  (forall env ev s, P s -> P (step env ev s)) ->
  forall events s, P s -> P (run step events s).
Proof.
  intros Hstep events. unfold run.
  induction events as [|[env ev] events IH]; intros s Hs; simpl; [done|].
  apply IH, Hstep, Hs.
Qed.

(** ** Snapshot load *)

Lemma Dashboard_snapshot env ms response body l s :
  network env (Dashboard.baseUrl env +:+ "/customer-notifications/active")
    (mkInit None (HeadersObject (Dashboard.authorization env)) None)
  = Responds ms response ->
  ok response = true ->
  json response = Fulfilled body ->
  asActiveNotifications body = mkActive true (Some l) ->
  settle (Dashboard.loadNotifications env) s
  = mkStore (take 10 l) (Z.of_nat (length l)).
Proof.
  intros Hnet Hok Hjson Hdata.
  unfold Dashboard.loadNotifications, settle, tryCatch, bind, fetchAsync, fetch,
    Api.responseJson.
  injection Hdata as Hsuccess Hactive.
  simpl. rewrite Hnet. simpl. rewrite Hok, Hjson. simpl.
  rewrite Hsuccess, Hactive. simpl.
  unfold setUnreadCount, setNotifications. simpl.
  by rewrite slice_prefix by lia.
Qed.

Lemma Bell_snapshot env ms response body l s :
  network env (resolvedUrl env "/customer-notifications/active")
    (mkInit (Some "GET")
       (HeadersObject (Api.authHeaders (accessToken env) noHeaders)) None)
  = Responds ms response ->
  ms <= 10000 ->
  ok response = true ->
  json response = Fulfilled body ->
  asActiveNotifications body = mkActive true (Some l) ->
  settle (Bell.loadNotifications env) s = mkStore l (Z.of_nat (length l)).
Proof.
  intros Hnet Hms Hok Hjson Hdata.
  pose proof (authenticated_fulfilled "/customer-notifications/active"
                (Api.withMethod "GET" None) env ms response Hnet Hms) as Hrun.
  unfold Bell.loadNotifications, settle, tryCatch, bind.
  destruct (Api.authenticatedApiRequest _ _ env) as [calls o].
  simpl in Hrun. subst o.
  rewrite parseApiResponse_ok by done. rewrite Hjson. simpl.
  injection Hdata as Hsuccess Hactive. rewrite Hsuccess, Hactive. reflexivity.
Qed.

(** The scenario of the dashboard panel: fifteen notifications come back,
    ten are held and the counter shows fifteen. *)
Example Dashboard_snapshot_of_15 :
  settle (Dashboard.loadNotifications (answering (snapshotOf 15))) initialStore
  = mkStore (map sample (numbered 10)) 15.
Proof. vm_compute. reflexivity. Qed.

(** C1 (the bell's side): the bell's snapshot load stores the whole list it
    was given; with twenty-one notifications in the snapshot it holds
    twenty-one, not the first twenty. *)
Theorem Bell_snapshot_not_capped :
  let s := settle (Bell.loadNotifications (answering (snapshotOf 21))) initialStore in
  notifications s = map sample (numbered 21)
  /\ length (notifications s) = 21%nat
  /\ notifications s <> take 20 (map sample (numbered 21))
  /\ unreadCount s = 21.
Proof. vm_compute. repeat split; congruence. Qed.

(** ** Mark all as read *)

Lemma promiseAll_fulfilled {A : Type} (ps : list (outcome A)) :
  Forall (fun p => exists a, p = Fulfilled a) ps ->
  exists l, promiseAll ps = Fulfilled l.
Proof.
  induction 1 as [|p ps [a ->] _ [l IH]]; simpl; [by eexists|].
  rewrite IH. by eexists.
Qed.

Lemma promiseAll_rejected {A : Type} (ps : list (outcome A)) :
  Exists (fun p => exists e, p = Rejected e) ps ->
  exists e, promiseAll ps = Rejected e.
Proof.
  induction 1 as [p ps [e ->]|p ps _ [e IH]]; simpl; [by eexists|].
  rewrite IH. destruct p; by eexists.
Qed.

Lemma mark_read_call notificationId env :
  (markReadRequest notificationId env).1 = [markReadCall env notificationId].
Proof. unfold markReadRequest. by rewrite authenticated_calls. Qed.

Lemma mark_all_calls held env :
  (Bell.handleMarkAllAsRead held env).1
  = map (fun n => markReadCall env (notification_id n)) held.
Proof.
  unfold Bell.handleMarkAllAsRead, tryCatch, bind, all, ret.
  rewrite !map_map.
  assert (Hcalls :
    concat (map (fun n => (markReadRequest (notification_id n) env).1) held)
    = map (fun n => markReadCall env (notification_id n)) held).
  { induction held as [|n held IH]; simpl; [done|].
    by rewrite mark_read_call, IH. }
  unfold markReadRequest in Hcalls. rewrite Hcalls.
  destruct (promiseAll _); simpl; by rewrite ?app_nil_r.
Qed.

Lemma mark_all_outcome held env :
  (Bell.handleMarkAllAsRead held env).2
  = match promiseAll (map (fun n => (markReadRequest (notification_id n) env).2) held) with
    | Fulfilled _ =>
        Fulfilled (fun s => setUnreadCount (fun _ => 0) (setNotifications (fun _ => []) s))
    | Rejected _ => Fulfilled (fun s => s)
    | Pending => Pending
    end.
Proof.
  unfold Bell.handleMarkAllAsRead, tryCatch, bind, all, ret, markReadRequest.
  rewrite !map_map. destruct (promiseAll _); reflexivity.
Qed.

(** C2 (as the code has it): with [held] the list the bell shows, mark-all
    issues one mark-read request per held notification, in list order, so
    exactly as many requests as notifications; when none of them is
    rejected the list is cleared and the counter set to zero, and when one
    of them is rejected (a network failure or a timeout; a response with an
    error status is no rejection) the list and the counter are left as
    they were. *)
Theorem mark_all_clears_unless_rejected held env s :
  (Bell.handleMarkAllAsRead held env).1
  = map (fun n => markReadCall env (notification_id n)) held
  /\ length (Bell.handleMarkAllAsRead held env).1 = length held
  /\ (Forall (fun n => exists response,
                (markReadRequest (notification_id n) env).2 = Fulfilled response) held ->
      settle (Bell.handleMarkAllAsRead held env) s = mkStore [] 0)
  /\ (Exists (fun n => exists e,
                (markReadRequest (notification_id n) env).2 = Rejected e) held ->
      settle (Bell.handleMarkAllAsRead held env) s = s).
Proof.
  rewrite mark_all_calls, length_map. split; [done|]. split; [done|].
  unfold settle. rewrite mark_all_outcome. split; intros H.
  - destruct (promiseAll_fulfilled
                (map (fun n => (markReadRequest (notification_id n) env).2) held))
      as [l ->]; [|done].
    apply Forall_fmap. eapply Forall_impl; [exact H|].
    intros n [r Hr]. exists r. exact Hr.
  - destruct (promiseAll_rejected
                (map (fun n => (markReadRequest (notification_id n) env).2) held))
      as [e ->]; [|done].
    apply Exists_fmap. eapply Exists_impl; [exact H|].
    intros n [r Hr]. exists r. exact Hr.
Qed.

(** Error statuses do not stop the clearing. *)
Lemma mark_all_clears_on_server_error :
  length (Bell.handleMarkAllAsRead (notifications twoHeld) (answering serverError)).1
  = 2%nat
  /\ settle (Bell.handleMarkAllAsRead (notifications twoHeld) (answering serverError))
       twoHeld
     = mkStore [] 0.
Proof.
  destruct (mark_all_clears_unless_rejected (notifications twoHeld)
              (answering serverError) twoHeld) as (_ & Hlen & Hclear & _).
  split; [exact Hlen|]. apply Hclear.
  repeat constructor; exists serverError; vm_compute; reflexivity.
Defined.

(** C2 (as the spec has it) fails: with no connectivity the two requests
    are issued and rejected, and the bell keeps its two notifications and
    its counter. *)
Lemma mark_all_keeps_list_when_offline :
  length (Bell.handleMarkAllAsRead (notifications twoHeld) offline).1 = 2%nat
  /\ settle (Bell.handleMarkAllAsRead (notifications twoHeld) offline) twoHeld
     = twoHeld
  /\ notifications twoHeld <> []
  /\ unreadCount twoHeld <> 0.
Proof. vm_compute. repeat split; congruence. Qed.

(** ** Mark read *)

Lemma Dashboard_action_applied notificationId customerId actionType env s :
  notificationId <> "" ->
  0 < customerId ->
  network env (url (dashboardMarkReadCall env notificationId))
    (init (dashboardMarkReadCall env notificationId)) <> Hangs ->
  settle (Dashboard.handleNotificationAction notificationId (Some customerId)
            actionType env) s
  = removeRead notificationId s.
Proof.
  intros Hid Hc Hnet. unfold Dashboard.handleNotificationAction.
  rewrite bool_decide_eq_false_2 by done. simpl.
  replace (customerId =? 0) with false by (symmetry; apply Z.eqb_neq; lia).
  replace (customerId <=? 0) with false by (symmetry; apply Z.leb_gt; lia).
  simpl in *. settle_cases; done.
Qed.

(** The guard of the dashboard's handler: nothing happens for an empty id or
    for a customer id that is not a positive number. *)
Lemma Dashboard_action_guarded notificationId customerId actionType env :
  notificationId = "" \/ Dashboard.invalidCustomerId customerId = true ->
  Dashboard.handleNotificationAction notificationId customerId actionType env
  = ([], Fulfilled (fun s => s)).
Proof.
  intros [-> | Hc]; unfold Dashboard.handleNotificationAction.
  - reflexivity.
  - rewrite Hc, orb_true_r. reflexivity.
Qed.

Lemma removeRead_absent notificationId s :
  notificationId ∉ ids (notifications s) ->
  notifications (removeRead notificationId s) = notifications s.
Proof.
  simpl. generalize (notifications s). intros l Hout.
  induction l as [|n l IH]; [done|].
  change (ids (n :: l)) with (notification_id n :: ids l) in Hout.
  apply not_elem_of_cons in Hout as [Hn Hl].
  rewrite filter_cons_True by congruence. by rewrite IH.
Qed.

Lemma removeRead_gone notificationId s :
  notificationId ∉ ids (notifications (removeRead notificationId s)).
Proof.
  simpl. unfold ids. rewrite list_elem_of_fmap. intros (n & Heq & Hin).
  apply list_elem_of_filter in Hin as [Hne _]. congruence.
Qed.

Lemma removeRead_keeps notificationId s n :
  n ∈ notifications s ->
  notification_id n <> notificationId ->
  n ∈ notifications (removeRead notificationId s).
Proof. intros Hin Hne. simpl. by apply list_elem_of_filter. Qed.

Lemma removeRead_present notificationId s :
  notificationId ∈ ids (notifications s) ->
  NoDup (ids (notifications s)) ->
  S (length (notifications (removeRead notificationId s)))
  = length (notifications s).
Proof.
  simpl. generalize (notifications s). intros l.
  induction l as [|n l IH]; intros Hin Hnd.
  - by apply elem_of_nil in Hin.
  - change (ids (n :: l)) with (notification_id n :: ids l) in *.
    apply NoDup_cons in Hnd as [Hn Hnd].
    destruct (decide (notification_id n = notificationId)) as [Heq|Hne].
    + rewrite filter_cons_False by (intros H; by apply H).
      subst notificationId.
      pose proof (removeRead_absent (notification_id n) (mkStore l 0) Hn) as Hl.
      simpl in Hl. by rewrite Hl.
    + rewrite filter_cons_True by done. simpl. f_equal.
      apply IH; [|done]. apply elem_of_cons in Hin as [Heq|Hin]; [congruence|done].
Qed.

Lemma removeRead_NoDup notificationId s :
  NoDup (ids (notifications s)) ->
  NoDup (ids (notifications (removeRead notificationId s))).
Proof.
  simpl. unfold ids. intros Hnd.
  eapply sublist_NoDup; [exact Hnd | apply fmap_sublist, sublist_filter].
Qed.

Lemma receive_NoDup capacity data s :
  NoDup (ids (notifications s)) ->
  NoDup (ids (notifications (receive capacity data s))).
Proof.
  intros Hnd.
  destruct (decide (notification_id data ∈ ids (notifications s))) as [Hin|Hout].
  - by rewrite receive_held.
  - rewrite receive_fresh by done. simpl. rewrite ids_take.
    eapply sublist_NoDup; [|apply sublist_take].
    change (ids (data :: notifications s))
      with (notification_id data :: ids (notifications s)).
    by apply NoDup_cons.
Qed.

(** C3 (as the code has it): the mark-read action of either surface, once
    its request has settled, removes the entries carrying the id and lowers
    the counter by one without going below zero, whether or not the id was
    held. When the id is held (ids being unique in the list) exactly one
    entry leaves and every other entry stays; when it is not held the list
    is unchanged. The bell's request always settles; the dashboard acts
    only for a non-empty id and a positive customer id. *)
Theorem mark_read_removes_and_floors notificationId s :
  (forall actionType customerId env,
      settle (Bell.handleToastAction actionType customerId notificationId env) s
      = removeRead notificationId s)
  /\ (forall actionType customerId env,
      notificationId <> "" ->
      0 < customerId ->
      network env (url (dashboardMarkReadCall env notificationId))
        (init (dashboardMarkReadCall env notificationId)) <> Hangs ->
      settle (Dashboard.handleNotificationAction notificationId (Some customerId)
                actionType env) s
      = removeRead notificationId s)
  /\ unreadCount (removeRead notificationId s) = Z.max 0 (unreadCount s - 1)
  /\ (notificationId ∈ ids (notifications s) ->
      NoDup (ids (notifications s)) ->
      S (length (notifications (removeRead notificationId s)))
      = length (notifications s)
      /\ (notificationId ∉ ids (notifications (removeRead notificationId s)))
      /\ (forall n, n ∈ notifications s -> notification_id n <> notificationId ->
                    n ∈ notifications (removeRead notificationId s)))
  /\ (notificationId ∉ ids (notifications s) ->
      notifications (removeRead notificationId s) = notifications s).
Proof.
  split; [intros; apply Bell_toast_action|].
  split; [intros; by apply Dashboard_action_applied|].
  split; [reflexivity|].
  split.
  - intros Hin Hnd. split; [by apply removeRead_present|].
    split; [apply removeRead_gone|]. intros n. apply removeRead_keeps.
  - apply removeRead_absent.
Qed.

Lemma mark_read_of_held_notification :
  settle (Bell.handleToastAction "view_customer" 7 "a" offline) twoHeld
  = mkStore [sample "b"] 1
  /\ settle (Dashboard.handleNotificationAction "a" (Some 7) "start_transaction"
               offline) twoHeld
     = mkStore [sample "b"] 1
  /\ S (length (notifications (removeRead "a" twoHeld)))
     = length (notifications twoHeld).
Proof.
  destruct (mark_read_removes_and_floors "a" twoHeld)
    as (Hbell & Hdash & _ & Hheld & _).
  split; [apply Hbell|]. split.
  - apply Hdash; [done | lia | done].
  - apply Hheld; apply (bool_decide_unpack _); vm_compute; exact I.
Defined.

(** C3 (as the spec has it) fails: marking as read an id that is not held
    leaves the list alone but lowers the counter, here from 2 to 1, on
    either surface. *)
Lemma mark_read_absent_lowers_counter :
  ("zzz" ∉ ids (notifications twoHeld))
  /\ unreadCount twoHeld = 2
  /\ settle (Bell.handleToastAction "view_customer" 7 "zzz" (answering noContent))
       twoHeld
     = mkStore (notifications twoHeld) 1
  /\ settle (Dashboard.handleNotificationAction "zzz" (Some 7) "view_customer"
               (answering noContent)) twoHeld
     = mkStore (notifications twoHeld) 1.
Proof.
  split; [apply (bool_decide_unpack _); vm_compute; exact I|].
  vm_compute. repeat split; reflexivity.
Qed.

(** ** Receiving pushed notifications *)

(** C4: a pushed notification whose id is already held leaves the list, and
    so its length, as it was, and the unread counter still goes up by one,
    on the dashboard panel and on the bell. *)
Theorem duplicate_push_still_counts data s :
  notification_id data ∈ ids (notifications s) ->
  (notifications (Dashboard.handleNewNotification data s) = notifications s
   /\ unreadCount (Dashboard.handleNewNotification data s) = unreadCount s + 1)
  /\ (notifications (Bell.handleNewNotification data s) = notifications s
      /\ unreadCount (Bell.handleNewNotification data s) = unreadCount s + 1).
Proof.
  intros Hin. rewrite Dashboard_receive, Bell_receive, !receive_held by done.
  done.
Qed.

Lemma duplicate_push_on_two_held :
  Dashboard.handleNewNotification (sample "b") twoHeld
  = mkStore (notifications twoHeld) 3
  /\ Bell.handleNewNotification (sample "b") twoHeld
     = mkStore (notifications twoHeld) 3.
Proof.
  assert (Hin : notification_id (sample "b") ∈ ids (notifications twoHeld))
    by (apply (bool_decide_unpack _); vm_compute; exact I).
  destruct (duplicate_push_still_counts (sample "b") twoHeld Hin)
    as [[Hd1 Hd2] [Hb1 Hb2]].
  split.
  - destruct (Dashboard.handleNewNotification (sample "b") twoHeld) as [l c].
    simpl in *. by subst.
  - destruct (Bell.handleNewNotification (sample "b") twoHeld) as [l c].
    simpl in *. by subst.
Defined.

(** C5: when more notifications than the capacity arrive, all new to the
    store and different from each other, the list ends up holding the last
    ten (dashboard panel) or twenty (bell) of them, newest first; and each
    arrival at a full list drops the entry at the end of the list, which is
    the oldest. *)
Theorem capacity_keeps_most_recent incoming s :
  NoDup (ids incoming) ->
  (forall i, i ∈ ids incoming -> i ∉ ids (notifications s)) ->
  ((10 < length incoming)%nat ->
   notifications (foldl (fun s data => Dashboard.handleNewNotification data s) s incoming)
   = rev (drop (length incoming - 10) incoming))
  /\ ((20 < length incoming)%nat ->
      notifications (foldl (fun s data => Bell.handleNewNotification data s) s incoming)
      = rev (drop (length incoming - 20) incoming))
  /\ (forall data s',
        notification_id data ∉ ids (notifications s') ->
        (length (notifications s') = 10%nat ->
         notifications (Dashboard.handleNewNotification data s')
         = data :: removelast (notifications s'))
        /\ (length (notifications s') = 20%nat ->
            notifications (Bell.handleNewNotification data s')
            = data :: removelast (notifications s'))).
Proof.
  intros Hnd Hfresh. split; [|split].
  - intros Hlen. rewrite Dashboard_receiveAll. by apply receive_overflow.
  - intros Hlen. rewrite Bell_receiveAll. by apply receive_overflow.
  - intros data s' Hout. split; intros Hlen.
    + rewrite Dashboard_receive. apply receive_evicts_last; [done | done | lia].
    + rewrite Bell_receive. apply receive_evicts_last; [done | done | lia].
Qed.

Lemma twenty_five_pushed :
  notifications
    (foldl (fun s data => Dashboard.handleNewNotification data s) initialStore
       (map sample (numbered 25)))
  = rev (drop 15 (map sample (numbered 25)))
  /\ notifications
       (foldl (fun s data => Bell.handleNewNotification data s) initialStore
          (map sample (numbered 25)))
     = rev (drop 5 (map sample (numbered 25))).
Proof.
  assert (Hnd : NoDup (ids (map sample (numbered 25))))
    by (apply (bool_decide_unpack _); vm_compute; exact I).
  assert (Hfresh : forall i, i ∈ ids (map sample (numbered 25)) ->
                             i ∉ ids (notifications initialStore))
    by (intros i _; apply not_elem_of_nil).
  destruct (capacity_keeps_most_recent (map sample (numbered 25)) initialStore
              Hnd Hfresh) as (Hd & Hb & _).
  split; [apply Hd | apply Hb]; vm_compute; lia.
Defined.

(** C6: receiving the same notification twice leaves what the first arrival
    left: the second arrival does not change the list, and a store that
    held at most one entry with that id (as every store with unique ids
    does) holds exactly one afterwards, on both surfaces. *)
Theorem receive_twice_one_copy data s :
  (copies (notification_id data) (notifications s) <= 1)%nat ->
  (notifications (Dashboard.handleNewNotification data
                    (Dashboard.handleNewNotification data s))
   = notifications (Dashboard.handleNewNotification data s)
   /\ copies (notification_id data)
        (notifications (Dashboard.handleNewNotification data
                          (Dashboard.handleNewNotification data s))) = 1%nat)
  /\ (notifications (Bell.handleNewNotification data
                       (Bell.handleNewNotification data s))
      = notifications (Bell.handleNewNotification data s)
      /\ copies (notification_id data)
           (notifications (Bell.handleNewNotification data
                             (Bell.handleNewNotification data s))) = 1%nat).
Proof.
  intros Hle. rewrite !Dashboard_receive, !Bell_receive, !receive_twice.
  repeat split; try apply receive_copies; done || lia.
Qed.

Lemma receive_twice_from_empty :
  copies "a"
    (notifications (Dashboard.handleNewNotification (sample "a")
                      (Dashboard.handleNewNotification (sample "a") initialStore)))
  = 1%nat
  /\ copies "a"
       (notifications (Bell.handleNewNotification (sample "a")
                         (Bell.handleNewNotification (sample "a") initialStore)))
     = 1%nat.
Proof.
  assert (Hle : (copies (notification_id (sample "a")) (notifications initialStore)
                 <= 1)%nat) by (vm_compute; lia).
  destruct (receive_twice_one_copy (sample "a") initialStore Hle)
    as [[_ Hd] [_ Hb]].
  split; [exact Hd | exact Hb].
Defined.

(** ** The unread counter *)

(** C7: whatever happens to a surface, in whatever order and against
    whatever network, its unread counter is a non-negative integer after
    every event; marking as read more often than notifications were
    received is one such sequence. *)
Theorem unread_count_never_negative
  (dashboardEvents : list (Env * Dashboard.Event))
  (bellEvents : list (Env * Bell.Event)) :
  0 <= unreadCount (run Dashboard.step dashboardEvents initialStore)
  /\ 0 <= unreadCount (run Bell.step bellEvents initialStore).
Proof.
  split.
  - apply (run_invariant Dashboard.step (fun s => 0 <= unreadCount s)).
    + apply Dashboard_step_nonneg.
    + simpl. lia.
  - apply (run_invariant Bell.step (fun s => 0 <= unreadCount s)).
    + apply Bell_step_nonneg.
    + simpl. lia.
Qed.

Example more_reads_than_pushes :
  unreadCount
    (run Bell.step
       [(offline, Bell.NewNotification (sample "a"));
        (offline, Bell.NotificationRead "a");
        (offline, Bell.ToastDismiss "a");
        (offline, Bell.NotificationRead "b")]
       initialStore)
  = 0.
Proof. vm_compute. reflexivity. Qed.

(** ** Timeouts *)

Lemma timerDelay_le (ms : Z) : 0 <= ms -> timerDelay ms <= ms.
Proof.
  intros Hms. unfold timerDelay, toInt32.
  assert (Hpos : 0 < 2 ^ 32) by lia.
  pose proof (Z.mod_pos_bound ms (2 ^ 32) Hpos) as Hbound.
  pose proof (Z.mod_le ms (2 ^ 32) Hms Hpos) as Hle.
  simpl. destruct (2 ^ 31 <=? ms mod 2 ^ 32); lia.
Qed.

(** A failure that is not the abort keeps its own error when it is an
    [Error], and becomes the generic network error otherwise. *)
Lemma other_failures_reported endpoint options env ms e :
  network env (resolvedUrl env endpoint) (Api.fetchOptions options) = Fails ms e ->
  ms <= timerDelay (configuredTimeout options) ->
  (Api.apiRequest endpoint options env).2
  = match errorName e with
    | Some name =>
        if bool_decide (name = "AbortError")
        then Rejected (newError "Request timeout")
        else Rejected e
    | None => Rejected (newError "Network error")
    end.
Proof.
  intros Hnet Hms.
  unfold Api.apiRequest, tryCatch, bind, fetchAsync, fetch. simpl.
  fold (resolvedUrl env endpoint). fold (configuredTimeout options).
  rewrite Hnet.
  replace (timerDelay (configuredTimeout options) <? ms) with false
    by (symmetry; apply Z.ltb_ge; lia).
  destruct (errorName e) as [name|]; simpl; [|done].
  by destruct (bool_decide (name = "AbortError")).
Qed.

(** An answer or a failure that comes after the abort timer has fired, or
    never comes, is reported as a timeout. *)
Lemma apiRequest_times_out endpoint options env :
  0 <= configuredTimeout options ->
  takesLongerThan env (configuredTimeout options) (resolvedUrl env endpoint)
    (Api.fetchOptions options) ->
  (Api.apiRequest endpoint options env).2 = Rejected (newError "Request timeout").
Proof.
  intros Hpos Hlong.
  pose proof (timerDelay_le _ Hpos) as Hdelay.
  unfold takesLongerThan in Hlong.
  unfold Api.apiRequest, tryCatch, bind, fetchAsync, fetch. simpl.
  fold (resolvedUrl env endpoint). fold (configuredTimeout options).
  destruct (network env (resolvedUrl env endpoint) (Api.fetchOptions options))
    as [ms r|ms e|]; simpl.
  - replace (timerDelay (configuredTimeout options) <? ms) with true
      by (symmetry; apply Z.ltb_lt; lia).
    reflexivity.
  - replace (timerDelay (configuredTimeout options) <? ms) with true
      by (symmetry; apply Z.ltb_lt; lia).
    reflexivity.
  - reflexivity.
Qed.

(** C8: a call of the request client sends its one request with an abort
    signal set to the configured timeout (10000 ms unless the caller gives
    one). When the answer takes longer than the timeout, or never comes, the
    call is rejected with the error [Request timeout], and so is a call of
    the authenticated variant. The other ways a call can end are told apart
    from it: an answer that comes in time is returned, and a failure that
    comes in time (one that is not itself an abort or that very error) is
    rejected with its own error, or with [Network error] when what was
    thrown is no [Error], never with [Request timeout]. *)
Theorem timeout_reported_as_timeout endpoint options env :
  0 <= configuredTimeout options ->
  let request :=
    mkCall (resolvedUrl env endpoint) (Api.fetchOptions options)
      (Some (timerDelay (configuredTimeout options))) in
  let authenticated :=
    mkInit (method (Api.fetchOptions options))
      (HeadersObject
         (Api.authHeaders (accessToken env) (headers (Api.fetchOptions options))))
      (body (Api.fetchOptions options)) in
  (Api.apiRequest endpoint options env).1 = [request]
  /\ (takesLongerThan env (configuredTimeout options) (url request) (init request) ->
      (Api.apiRequest endpoint options env).2
      = Rejected (newError "Request timeout"))
  /\ (takesLongerThan env (configuredTimeout options) (url request) authenticated ->
      (Api.authenticatedApiRequest endpoint options env).2
      = Rejected (newError "Request timeout"))
  /\ (forall ms response,
        network env (url request) (init request) = Responds ms response ->
        ms <= timerDelay (configuredTimeout options) ->
        (Api.apiRequest endpoint options env).2 = Fulfilled response)
  /\ (forall ms e,
        network env (url request) (init request) = Fails ms e ->
        ms <= timerDelay (configuredTimeout options) ->
        errorName e <> Some "AbortError" ->
        e <> newError "Request timeout" ->
        (Api.apiRequest endpoint options env).2
        = Rejected (match errorName e with
                    | Some _ => e
                    | None => newError "Network error"
                    end)
        /\ (Api.apiRequest endpoint options env).2
           <> Rejected (newError "Request timeout")).
Proof.
  intros Hpos. simpl.
  split; [apply apiRequest_calls|].
  split; [by apply apiRequest_times_out|].
  split; [intros Hlong; unfold Api.authenticatedApiRequest;
          by apply apiRequest_times_out|].
  split; [intros ms response; apply apiRequest_fulfilled|].
  intros ms e Hnet Hms Habort Hother.
  rewrite (other_failures_reported _ _ _ _ _ Hnet Hms).
  destruct (errorName e) as [name|] eqn:Hname.
  - rewrite bool_decide_eq_false_2 by congruence. split; congruence.
  - split; [done|]. unfold newError. congruence.
Qed.

Lemma silent_backend_times_out :
  configuredTimeout Api.noOptions = 10000
  /\ (Api.apiRequest "/queue/stats" Api.noOptions silent).1
     = [mkCall "http://localhost:5000/api/queue/stats" (mkInit None noHeaders None)
          (Some 10000)]
  /\ (Api.apiRequest "/queue/stats" Api.noOptions silent).2
     = Rejected (newError "Request timeout")
  /\ (Api.apiRequest "/queue/stats"
        (Api.mkOptions (Some 10) (mkInit None noHeaders None))
        (answering noContent)).2
     = Rejected (newError "Request timeout")
  /\ (Api.apiRequest "/queue/stats" Api.noOptions offline).2
     = Rejected (ErrorObj "TypeError" "Failed to fetch").
Proof.
  split; [reflexivity|].
  destruct (timeout_reported_as_timeout "/queue/stats" Api.noOptions silent)
    as (Hcalls & Hsilent & _); [vm_compute; congruence|].
  destruct (timeout_reported_as_timeout "/queue/stats"
              (Api.mkOptions (Some 10) (mkInit None noHeaders None))
              (answering noContent))
    as (_ & Hslow & _); [vm_compute; congruence|].
  destruct (timeout_reported_as_timeout "/queue/stats" Api.noOptions offline)
    as (_ & _ & _ & _ & Hfails); [vm_compute; congruence|].
  split; [exact Hcalls|].
  split; [apply Hsilent; exact I|].
  split; [apply Hslow; vm_compute; reflexivity|].
  apply (Hfails 5 (ErrorObj "TypeError" "Failed to fetch")); try done.
Defined.

(** ** Error responses *)

Lemma errorMessage_of_body response env data :
  json response = Fulfilled data ->
  data <> JNull ->
  Api.errorMessage response env
  = ([], Fulfilled (Js.or (Js.or (prop "error" data) (prop "message" data))
                      (Some (JStr "An error occurred")))).
Proof.
  intros Hjson Hnull.
  unfold Api.errorMessage, tryCatch, bind, Api.responseJson, ret, throw.
  rewrite Hjson. by destruct data.
Qed.

Lemma errorMessage_fallback response env :
  json response = Fulfilled JNull \/ (exists e, json response = Rejected e) ->
  Api.errorMessage response env
  = ([], Fulfilled (Some (JStr (Api.httpFallback response)))).
Proof.
  unfold Api.errorMessage, tryCatch, bind, Api.responseJson, ret, throw.
  by intros [-> | [e ->]].
Qed.

Lemma handleApiError_of_message {A : Type} response env (message : value) :
  Api.errorMessage response env = ([], Fulfilled message) ->
  (@Api.handleApiError A response env).2 = Rejected (newErrorFrom message).
Proof. intros Hrun. unfold Api.handleApiError, bind, throw. by rewrite Hrun. Qed.


(** On an error status [parseApiResponse] ends as [handleApiError] does. *)
Lemma parseApiResponse_error response env :
  ok response = false ->
  (Api.parseApiResponse response env).2
  = match (@Api.handleApiError unit response env).2 with
    | Fulfilled _ => json response
    | Rejected e => Rejected e
    | Pending => Pending
    end.
Proof.
  intros Hok. unfold Api.parseApiResponse. rewrite Hok. simpl.
  unfold bind at 1.
  by destruct (Api.handleApiError response env) as [calls [[]|e|]].
Qed.





(** String forms of fields that are not strings. *)
Example string_forms :
  toString (JNum 404) = Some "404"
  /\ toString (JNum (10 ^ 21)) = Some "1e+21"
  /\ toString (JNum (2 ^ 70)) = Some "1.1805916207174113e+21"
  /\ toString (JNum 9007199254740993) = Some "9007199254740992"
  /\ toString (JArr [JStr "a"; JNull; JNum 2; JArr [JBool true]]) = Some "a,,2,true"
  /\ toString (JObj [("code", JNum 7)]) = Some "[object Object]"
  /\ toString (JArr [JObj [("toString", JNull)]]) = None.
Proof. vm_compute. repeat split; reflexivity. Qed.

(** ** Authenticated requests *)


Lemma authHeaders_content_type token (caller : HeadersInit) :
  spread caller !! "Content-Type" = None ->
  Api.authHeaders token caller !! "Content-Type" = Some "application/json".
Proof.
  intros Hk. unfold Api.authHeaders.
  rewrite lookup_union_r; [apply lookup_singleton_eq|].
  rewrite lookup_union_r by done.
  destruct token as [t|]; [|done].
  destruct (bool_decide (t = "")); [done|]. by apply lookup_singleton_ne.
Qed.













Example signed_in_request :
  map (fun c =>
         match headers (init c) with
         | HeadersObject sent => (sent !! "Authorization", sent !! "Content-Type")
         | _ => (None, None)
         end)
    (Api.authenticatedApiRequest "/queue/stats"
       (Api.mkOptions None
          (mkInit (Some "GET")
             (HeadersObject {[ "Content-Type" := "text/plain" ]}) None))
       (answering noContent)).1
  = [(Some "Bearer token-1", Some "text/plain")].
Proof. vm_compute. reflexivity. Qed.
(** * Further properties of the code *)

(** ** Strings *)

Lemma string_append_cons (c : Ascii.ascii) (s x : string) :
  String c s +:+ x = String c (s +:+ x).
Proof. reflexivity. Qed.

Lemma string_append_empty (s : string) : s +:+ "" = s.
Proof.
  induction s as [|c s IH]; [done|]. rewrite string_append_cons. by rewrite IH.
Qed.

Lemma string_length_append (s x : string) :
  String.length (s +:+ x) = (String.length s + String.length x)%nat.
Proof.
  induction s as [|c s IH]; [done|].
  rewrite string_append_cons. simpl. by rewrite IH.
Qed.

Lemma string_append_assoc (a b c : string) : (a +:+ b) +:+ c = a +:+ (b +:+ c).
Proof.
  induction a as [|ch a IH]; [done|].
  rewrite !string_append_cons. by rewrite IH.
Qed.

Lemma substring_whole (s : string) : String.substring 0 (String.length s) s = s.
Proof. induction s as [|c s IH]; simpl; [done|]. by rewrite IH. Qed.

Lemma substring_append_r (s x : string) :
  String.substring (String.length s) (String.length x) (s +:+ x) = x.
Proof.
  induction s as [|c s IH]; [apply substring_whole|].
  rewrite string_append_cons. simpl. exact IH.
Qed.

Lemma substring_split (s : string) (n : nat) :
  (n <= String.length s)%nat ->
  s = String.substring 0 n s +:+ String.substring n (String.length s - n) s.
Proof.
  revert n. induction s as [|c s IH]; intros n Hn; simpl in *.
  - destruct n; [done | lia].
  - destruct n as [|n]; simpl.
    + by rewrite substring_whole.
    + rewrite string_append_cons. f_equal. apply IH. lia.
Qed.

Lemma endsWith_append (x s : string) : endsWith x (s +:+ x) = true.
Proof.
  unfold endsWith. rewrite string_length_append.
  apply andb_true_intro. split.
  - apply Nat.leb_le. lia.
  - apply bool_decide_eq_true.
    replace (String.length s + String.length x - String.length x)%nat
      with (String.length s) by lia.
    apply substring_append_r.
Qed.

Lemma endsWith_inv (x s : string) :
  endsWith x s = true -> exists b, s = b +:+ x.
Proof.
  unfold endsWith. intros [Hle Heq]%andb_prop.
  apply Nat.leb_le in Hle. apply bool_decide_eq_true in Heq.
  exists (String.substring 0 (String.length s - String.length x) s).
  pose proof (substring_split s (String.length s - String.length x)) as Hsplit.
  replace (String.length s - (String.length s - String.length x))%nat
    with (String.length x) in Hsplit by lia.
  rewrite Heq in Hsplit. apply Hsplit. lia.
Qed.

(** ** The base URL *)

Lemma apiBaseUrl_suffix (trim : string -> string) (envUrl : option string) :
  endsWith "/api" (apiBaseUrl trim envUrl) = true.
Proof.
  unfold apiBaseUrl. destruct envUrl as [v|]; [|reflexivity].
  destruct (bool_decide (v = "")); [reflexivity|].
  destruct (endsWith "/api" (trim v)) eqn:Hapi; [exact Hapi|].
  destruct (endsWith "/" (trim v)) eqn:Hslash.
  - apply endsWith_inv in Hslash as [b ->].
    rewrite string_append_assoc. apply endsWith_append.
  - apply endsWith_append.
Qed.

(** X1: whatever [REACT_APP_API_URL] holds, the base URL computed when
    [utils/api.ts] is loaded ends with [/api]: it is the local default when
    the variable is unset or empty, and otherwise the trimmed value followed
    by nothing, by [api] or by [/api]. *)
Theorem base_url_ends_with_api (trim : string -> string) (envUrl : option string) :
  endsWith "/api" (apiBaseUrl trim envUrl) = true
  /\ match envUrl with
     | None => apiBaseUrl trim envUrl = "http://localhost:5000/api"
     | Some v =>
         if bool_decide (v = "")
         then apiBaseUrl trim envUrl = "http://localhost:5000/api"
         else exists tail,
             apiBaseUrl trim envUrl = trim v +:+ tail
             /\ (tail = "" \/ tail = "api" \/ tail = "/api")
     end.
Proof.
  split; [apply apiBaseUrl_suffix|].
  unfold apiBaseUrl. destruct envUrl as [v|]; [|reflexivity].
  destruct (bool_decide (v = "")); [reflexivity|].
  destruct (endsWith "/api" (trim v)); [|destruct (endsWith "/" (trim v))].
  - exists "". split; [|by left]. by rewrite string_append_empty.
  - exists "api". split; [done|]. right. by left.
  - exists "/api". split; [done|]. right. by right.
Qed.

(** X2: the dashboard panel builds its URLs from [REACT_APP_API_URL] as it
    is, while the request client, which the bell uses, takes the normalised
    base URL. The two agree when the variable is unset or empty, or ends
    with [/api] and has nothing to trim; when it is set and does not end
    with [/api], the dashboard's base URL is the variable itself and
    differs from the client's. *)
Theorem surfaces_agree_on_base_url (trim : string -> string) (env : Env) :
  API_BASE_URL env = apiBaseUrl trim (REACT_APP_API_URL env) ->
  (REACT_APP_API_URL env = None \/ REACT_APP_API_URL env = Some ""
   \/ (exists u, REACT_APP_API_URL env = Some u /\ trim u = u
                 /\ endsWith "/api" u = true) ->
   Dashboard.baseUrl env = API_BASE_URL env)
  /\ (forall u, REACT_APP_API_URL env = Some u -> u <> "" ->
        endsWith "/api" u = false ->
        Dashboard.baseUrl env = u /\ Dashboard.baseUrl env <> API_BASE_URL env).
Proof.
  intros Hbase. split.
  - rewrite Hbase. unfold Dashboard.baseUrl, apiBaseUrl.
    intros [-> | [-> | (u & -> & Htrim & Hapi)]]; [done | done |].
    rewrite Htrim, Hapi. reflexivity.
  - intros u Hu Hne Hapi.
    assert (Hdash : Dashboard.baseUrl env = u).
    { unfold Dashboard.baseUrl. rewrite Hu. by rewrite bool_decide_eq_false_2. }
    split; [exact Hdash|]. rewrite Hdash, Hbase. intros Heq.
    pose proof (apiBaseUrl_suffix trim (REACT_APP_API_URL env)) as Hends.
    rewrite <- Heq in Hends. congruence.
Qed.

Lemma bare_host_splits_the_surfaces :
  Dashboard.baseUrl bareHost = "http://10.0.0.5:5000"
  /\ API_BASE_URL bareHost = "http://10.0.0.5:5000/api"
  /\ Dashboard.baseUrl bareHost <> API_BASE_URL bareHost.
Proof.
  destruct (surfaces_agree_on_base_url (fun s => s) bareHost eq_refl)
    as [_ Hdiffer].
  destruct (Hdiffer "http://10.0.0.5:5000" eq_refl) as [Hdash Hne].
  - done.
  - vm_compute. reflexivity.
  - split; [exact Hdash|]. split; [reflexivity | exact Hne].
Defined.

(** ** The request client, beyond timeouts *)

Lemma timerDelay_in_range (ms : Z) : 0 <= ms < 2 ^ 31 -> timerDelay ms = ms.
Proof.
  intros Hms. unfold timerDelay, toInt32.
  rewrite Z.mod_small by lia.
  replace (2 ^ 31 <=? ms) with false by (symmetry; apply Z.leb_gt; lia).
  lia.
Qed.


(** X4: the request client does not look at the HTTP status: a response
    that arrives within the timeout (a timeout in the range of a timer
    delay) is handed to the caller as it is, success or not. *)
Theorem response_in_time_is_returned endpoint options env ms response :
  0 <= configuredTimeout options < 2 ^ 31 ->
  network env (resolvedUrl env endpoint) (Api.fetchOptions options)
  = Responds ms response ->
  ms <= configuredTimeout options ->
  (Api.apiRequest endpoint options env).2 = Fulfilled response.
Proof.
  intros Hrange Hnet Hms. apply (apiRequest_fulfilled _ _ _ ms); [done|].
  by rewrite timerDelay_in_range.
Qed.

Lemma server_error_is_returned :
  ok serverError = false
  /\ (Api.apiRequest "/queue/stats" Api.noOptions (answering serverError)).2
     = Fulfilled serverError.
Proof.
  split; [reflexivity|].
  apply (response_in_time_is_returned "/queue/stats" Api.noOptions
           (answering serverError) 20 serverError).
  - vm_compute. split; congruence.
  - reflexivity.
  - vm_compute. congruence.
Defined.

(** X5: how failures reach the caller. A failure of [fetch] before the
    timeout that is an [Error] keeps its identity, unless it is named
    [AbortError], which is reported as a timeout even though the timeout
    has not passed; a thrown value that is not an [Error] becomes the
    generic [Network error]. *)
Theorem failures_keep_their_error endpoint options env ms e :
  network env (resolvedUrl env endpoint) (Api.fetchOptions options) = Fails ms e ->
  ms <= timerDelay (configuredTimeout options) ->
  (forall name, errorName e = Some name -> name <> "AbortError" ->
     (Api.apiRequest endpoint options env).2 = Rejected e)
  /\ (errorName e = Some "AbortError" ->
      (Api.apiRequest endpoint options env).2
      = Rejected (newError "Request timeout"))
  /\ (errorName e = None ->
      (Api.apiRequest endpoint options env).2
      = Rejected (newError "Network error"))
  /\ (forall name message, e = ErrorObj name message -> name <> "AbortError" ->
        (Api.apiRequest endpoint options env).2 = Rejected e)
  /\ (forall message, e = ErrorObj "AbortError" message ->
        (Api.apiRequest endpoint options env).2
        = Rejected (newError "Request timeout"))
  /\ (forall description, e = NonError description ->
        (Api.apiRequest endpoint options env).2
        = Rejected (newError "Network error")).
Proof.
  intros Hnet Hms.
  rewrite (other_failures_reported _ _ _ _ _ Hnet Hms).
  split; [|split; [|split; [|split; [|split]]]].
  - intros name -> Hname. by rewrite bool_decide_eq_false_2.
  - by intros ->.
  - by intros ->.
  - intros name message -> Hname. simpl. by rewrite bool_decide_eq_false_2.
  - by intros message ->.
  - by intros description ->.
Qed.

Lemma offline_failure_is_rethrown :
  (Api.apiRequest "/queue/stats" Api.noOptions offline).2
  = Rejected (ErrorObj "TypeError" "Failed to fetch").
Proof.
  destruct (failures_keep_their_error "/queue/stats" Api.noOptions offline 5
              (ErrorObj "TypeError" "Failed to fetch") eq_refl)
    as (_ & _ & _ & Hkeep & _).
  - vm_compute. congruence.
  - by apply (Hkeep "TypeError" "Failed to fetch").
Defined.

(** X6: the method helpers send one request to the resolved endpoint with
    their method, with the given text as body for [POST], [PUT] and [PATCH]
    and no body for [GET] and [DELETE], always with the default timeout of
    10000 ms and with [Content-Type: application/json]. *)
Theorem helpers_send_method_and_body endpoint data env :
  let call m b :=
    [mkCall (resolvedUrl env endpoint)
       (mkInit (Some m)
          (HeadersObject (Api.authHeaders (accessToken env) noHeaders)) b)
       (Some 10000)] in
  (Api.apiGet endpoint env).1 = call "GET" None
  /\ (Api.apiPost endpoint data env).1 = call "POST" (Some data)
  /\ (Api.apiPut endpoint data env).1 = call "PUT" (Some data)
  /\ (Api.apiPatch endpoint data env).1 = call "PATCH" (Some data)
  /\ (Api.apiDelete endpoint env).1 = call "DELETE" None
  /\ Api.authHeaders (accessToken env) noHeaders !! "Content-Type"
     = Some "application/json".
Proof.
  unfold Api.apiGet, Api.apiPost, Api.apiPut, Api.apiPatch, Api.apiDelete.
  rewrite !authenticated_calls. repeat split.
  by apply authHeaders_content_type.
Qed.

(** ** Parsing responses *)

(** X7: [parseApiResponse] sends no request of its own. It is fulfilled
    exactly when the status is a success status and the body is read as
    JSON, with the parsed body; on a success status it ends as the read of
    the body ends, so a read that fails is rejected with the read's own
    error; and whatever the status it settles exactly when the read of the
    body settles, which no timeout makes sure of. *)
Theorem parse_response_succeeds_iff response env :
  (Api.parseApiResponse response env).1 = []
  /\ (forall data,
        (Api.parseApiResponse response env).2 = Fulfilled data
        <-> ok response = true /\ json response = Fulfilled data)
  /\ (ok response = true ->
      (Api.parseApiResponse response env).2 = json response)
  /\ ((Api.parseApiResponse response env).2 = Pending <-> json response = Pending).
Proof.
  split; [apply parseApiResponse_calls|].
  split; [intros data; apply parseApiResponse_fulfilled|].
  split; [intros Hok; by rewrite parseApiResponse_ok|].
  destruct (ok response) eqn:Hok; [by rewrite parseApiResponse_ok|].
  rewrite parseApiResponse_error by done.
  unfold Api.handleApiError, bind, throw.
  destruct (json response) as [data|e|] eqn:Hjson.
  - assert (Hcases : data = JNull \/ data <> JNull)
      by (destruct data; (by left) || by right).
    destruct Hcases as [->|Hnull].
    + by rewrite errorMessage_fallback by (by left).
    + by rewrite (errorMessage_of_body _ _ data).
  - by rewrite errorMessage_fallback by (right; by eexists).
  - unfold Api.errorMessage, tryCatch, bind, Api.responseJson. by rewrite Hjson.
Qed.

Lemma parse_success_and_failure :
  (Api.parseApiResponse noContent offline).2 = Fulfilled (JObj [])
  /\ (Api.parseApiResponse (mkResponse 200 "OK" notJson) offline).2 = notJson
  /\ (Api.parseApiResponse (mkResponse 200 "OK" Pending) offline).2 = Pending.
Proof.
  split; [|split].
  - apply (parse_response_succeeds_iff noContent offline). by split.
  - by apply (parse_response_succeeds_iff (mkResponse 200 "OK" notJson) offline).
  - by apply (parse_response_succeeds_iff (mkResponse 200 "OK" Pending) offline).
Defined.

(** X8: the two messages [handleApiError] falls back on. A JSON body that
    is not [null] and has neither a truthy [error] nor a truthy [message]
    (an empty object, an array, a number, a string, fields that are empty
    strings, zero, [false] or [null]) gives [An error occurred]; the body
    [null] gives the HTTP fallback, like a body that is not JSON. *)
Theorem error_message_fallbacks response env :
  (forall data,
      json response = Fulfilled data -> data <> JNull ->
      truthy (prop "error" data) = false ->
      truthy (prop "message" data) = false ->
      (@Api.handleApiError unit response env).2
      = Rejected (newError "An error occurred"))
  /\ (json response = Fulfilled JNull ->
      (@Api.handleApiError unit response env).2
      = Rejected (newError ("HTTP " +:+ pretty (status response) +:+ ": "
                            +:+ statusText response))).
Proof.
  split.
  - intros data Hjson Hnull Herror Hmessage.
    rewrite (handleApiError_of_message _ _ (Some (JStr "An error occurred")));
      [done|].
    rewrite (errorMessage_of_body _ _ data) by done.
    unfold Js.or. by rewrite Herror, Hmessage.
  - intros Hjson.
    rewrite (handleApiError_of_message _ _
               (Some (JStr (Api.httpFallback response)))); [done|].
    apply errorMessage_fallback. by left.
Qed.

Lemma error_message_of_odd_bodies :
  (@Api.handleApiError unit
     (mkResponse 502 "Bad Gateway"
        (Fulfilled (JObj [("error", JStr ""); ("message", JNull)]))) offline).2
  = Rejected (newError "An error occurred")
  /\ (@Api.handleApiError unit
        (mkResponse 502 "Bad Gateway" (Fulfilled (JArr [JNum 1]))) offline).2
     = Rejected (newError "An error occurred")
  /\ (@Api.handleApiError unit
        (mkResponse 502 "Bad Gateway" (Fulfilled JNull)) offline).2
     = Rejected (newError "HTTP 502: Bad Gateway").
Proof.
  split; [|split].
  - by apply (proj1 (error_message_fallbacks _ _)
                (JObj [("error", JStr ""); ("message", JNull)])).
  - by apply (proj1 (error_message_fallbacks _ _) (JArr [JNum 1])).
  - by rewrite (proj2 (error_message_fallbacks
                         (mkResponse 502 "Bad Gateway" (Fulfilled JNull)) offline)
                  eq_refl).
Defined.

(** ** Invariants of the two stores *)

Lemma run_invariant_on {Event : Type} (step : Env -> Event -> Store -> Store)
  (Q : Env * Event -> Prop) (P : Store -> Prop) :
  (forall env ev s, Q (env, ev) -> P s -> P (step env ev s)) ->
  forall events s, Forall Q events -> P s -> P (run step events s).
Proof.
  intros Hstep events. unfold run.
  induction events as [|[env ev] events IH]; intros s HQ Hs; simpl; [done|].
  apply Forall_cons in HQ as [Hq HQ]. apply IH; [done|]. by apply Hstep.
Qed.

Lemma receive_length capacity data s :
  (length (notifications s) <= capacity)%nat ->
  (length (notifications (receive capacity data s)) <= capacity)%nat.
Proof.
  intros Hlen. unfold receive. simpl.
  destruct (bool_decide _); [done|]. rewrite length_take. lia.
Qed.

Lemma removeRead_length notificationId s :
  (length (notifications (removeRead notificationId s))
   <= length (notifications s))%nat.
Proof. simpl. apply length_filter. Qed.

(** X9: the dashboard panel never holds more than ten notifications,
    whatever sequence of snapshot loads, pushed notifications and actions it
    goes through and whatever the network answers. *)
Theorem dashboard_holds_at_most_ten (events : list (Env * Dashboard.Event)) :
  (length (notifications (run Dashboard.step events initialStore)) <= 10)%nat.
Proof.
  apply (run_invariant Dashboard.step
           (fun s => (length (notifications s) <= 10)%nat)); [|simpl; lia].
  intros env ev s Hs.
  destruct ev as [|data|notificationId customerId actionType];
    unfold Dashboard.step.
  - destruct (Dashboard_load_cases env s) as [->|[l ->]]; [done|].
    simpl. rewrite length_take. lia.
  - rewrite Dashboard_receive. by apply receive_length.
  - destruct (Dashboard_action_cases notificationId customerId actionType env s)
      as [->| ->]; [done|].
    pose proof (removeRead_length notificationId s). lia.
Qed.

(** X10: on the bell, pushed notifications, mark-read events, toast actions
    and mark-all keep the list within twenty entries; only a snapshot load
    can make it longer. *)
Theorem bell_holds_at_most_twenty_between_loads
  (events : list (Env * Bell.Event)) (s : Store) :
  Forall (fun p => p.2 <> Bell.Mounted) events ->
  (length (notifications s) <= 20)%nat ->
  (length (notifications (run Bell.step events s)) <= 20)%nat.
Proof.
  apply (run_invariant_on Bell.step (fun p => p.2 <> Bell.Mounted)
           (fun s => (length (notifications s) <= 20)%nat)).
  intros env ev s' Hev Hs.
  destruct ev as [|data|notificationId|actionType customerId notificationId
                  |notificationId|rendered];
    unfold Bell.step; simpl in Hev.
  - done.
  - rewrite Bell_receive. by apply receive_length.
  - rewrite Bell_read. pose proof (removeRead_length notificationId s'). lia.
  - rewrite Bell_toast_action.
    pose proof (removeRead_length notificationId s'). lia.
  - rewrite Bell_toast_dismiss.
    pose proof (removeRead_length notificationId s'). lia.
  - destruct (Bell_mark_all_cases rendered env s') as [->| ->]; simpl; [done|lia].
Qed.

Lemma bell_after_pushes_and_reads :
  (length
     (notifications
        (run Bell.step
           (map (fun i => (offline, Bell.NewNotification (sample i))) (numbered 25)
            ++ [(offline, Bell.NotificationRead "n3");
                (offline, Bell.ToastDismiss "n24")])
           initialStore))
   <= 20)%nat.
Proof.
  apply bell_holds_at_most_twenty_between_loads.
  - apply Forall_app. split.
    + apply Forall_fmap, Forall_true. by intros i.
    + by repeat constructor.
  - simpl. lia.
Defined.

(** The snapshot a load stores is one the backend served. *)
Lemma Dashboard_load_served env s :
  settle (Dashboard.loadNotifications env) s = s
  \/ exists requestUrl requestInit ms response body l,
      network env requestUrl requestInit = Responds ms response
      /\ json response = Fulfilled body
      /\ active (asActiveNotifications body) = Some l
      /\ settle (Dashboard.loadNotifications env) s
         = mkStore (take 10 l) (Z.of_nat (length l)).
Proof.
  unfold Dashboard.loadNotifications. settle_cases; eauto.
  all: right; do 6 eexists; split; [eassumption|]; split; [eassumption|];
    split;
    [ match goal with H : prop "notifications" _ = _ |- _ => simpl; rewrite H end;
      reflexivity
    | unfold setUnreadCount, setNotifications; simpl;
      rewrite slice_prefix by lia; reflexivity ].
Qed.

Lemma apiRequest_fulfilled_inv endpoint options env response :
  (Api.apiRequest endpoint options env).2 = Fulfilled response ->
  exists ms,
    network env (resolvedUrl env endpoint) (Api.fetchOptions options)
    = Responds ms response.
Proof.
  unfold Api.apiRequest, tryCatch, bind, fetchAsync, fetch. simpl.
  fold (resolvedUrl env endpoint).
  destruct (network env (resolvedUrl env endpoint) (Api.fetchOptions options))
    as [ms r|ms e|]; simpl.
  - destruct (_ <? ms); simpl; [discriminate|]. intros [= ->]. by exists ms.
  - destruct (_ <? ms); simpl; [discriminate|].
    destruct (errorName e) as [name|]; simpl; [|discriminate].
    by destruct (bool_decide (name = "AbortError")).
  - discriminate.
Qed.

Lemma Bell_load_served env s :
  settle (Bell.loadNotifications env) s = s
  \/ exists requestUrl requestInit ms response body l,
      network env requestUrl requestInit = Responds ms response
      /\ json response = Fulfilled body
      /\ active (asActiveNotifications body) = Some l
      /\ settle (Bell.loadNotifications env) s = mkStore l (Z.of_nat (length l)).
Proof.
  unfold Bell.loadNotifications, settle, tryCatch, bind.
  destruct (Api.authenticatedApiRequest _ _ env) as [calls [response|e|]] eqn:Hrun;
    simpl; eauto.
  assert (Hnet : (Api.authenticatedApiRequest "/customer-notifications/active"
                    (Api.withMethod "GET" None) env).2 = Fulfilled response)
    by (by rewrite Hrun).
  unfold Api.authenticatedApiRequest in Hnet.
  apply apiRequest_fulfilled_inv in Hnet as [ms Hnet].
  destruct (Api.parseApiResponse response env) as [calls' [body|e|]] eqn:Hparse;
    simpl; eauto.
  assert (Hjson : json response = Fulfilled body).
  { apply (parseApiResponse_fulfilled response env body). by rewrite Hparse. }
  destruct (truthy (prop "success" body)); simpl; eauto.
  destruct (prop "notifications" body) as [[| | | |items|]|] eqn:Hitems;
    simpl; eauto.
  right. do 6 eexists. split; [exact Hnet|]. split; [exact Hjson|].
  split; [|reflexivity]. simpl. by rewrite Hitems.
Qed.

(** X11: the ids held by a surface stay pairwise different through every
    sequence of events, as long as each snapshot the backend serves lists
    every id once: pushes skip an id that is held, removals and truncation
    only take entries away, and a snapshot replaces the list as a whole. *)
Theorem held_ids_stay_unique
  (dashboardEvents : list (Env * Dashboard.Event))
  (bellEvents : list (Env * Bell.Event)) :
  Forall (fun p => servesUniqueIds p.1) dashboardEvents ->
  Forall (fun p => servesUniqueIds p.1) bellEvents ->
  NoDup (ids (notifications (run Dashboard.step dashboardEvents initialStore)))
  /\ NoDup (ids (notifications (run Bell.step bellEvents initialStore))).
Proof.
  intros Hd Hb. split.
  - apply (run_invariant_on Dashboard.step (fun p => servesUniqueIds p.1)
             (fun s => NoDup (ids (notifications s)))); [|done|apply NoDup_nil_2].
    intros env ev s Henv Hs.
    destruct ev as [|data|notificationId customerId actionType];
      unfold Dashboard.step.
    + destruct (Dashboard_load_served env s)
        as [->|(u & i & ms & r & body & l & Hnet & Hjson & Hl & ->)]; [done|].
      simpl. rewrite ids_take.
      eapply sublist_NoDup; [|apply sublist_take]. by eapply Henv.
    + rewrite Dashboard_receive. by apply receive_NoDup.
    + destruct (Dashboard_action_cases notificationId customerId actionType env s)
        as [->| ->]; [done|]. by apply removeRead_NoDup.
  - apply (run_invariant_on Bell.step (fun p => servesUniqueIds p.1)
             (fun s => NoDup (ids (notifications s)))); [|done|apply NoDup_nil_2].
    intros env ev s Henv Hs.
    destruct ev as [|data|notificationId|actionType customerId notificationId
                    |notificationId|rendered];
      unfold Bell.step.
    + destruct (Bell_load_served env s)
        as [->|(u & i & ms & r & body & l & Hnet & Hjson & Hl & ->)]; [done|].
      simpl. by eapply Henv.
    + rewrite Bell_receive. by apply receive_NoDup.
    + rewrite Bell_read. by apply removeRead_NoDup.
    + rewrite Bell_toast_action. by apply removeRead_NoDup.
    + rewrite Bell_toast_dismiss. by apply removeRead_NoDup.
    + destruct (Bell_mark_all_cases rendered env s) as [->| ->];
        [done | apply NoDup_nil_2].
Qed.

Lemma offline_serves_unique_ids : servesUniqueIds offline.
Proof. intros u i ms r body l Hnet. discriminate Hnet. Qed.

Lemma snapshot_serves_unique_ids : servesUniqueIds (answering (snapshotOf 3)).
Proof.
  intros u i ms r body l [= _ <-] [= <-] [= <-].
  apply (bool_decide_unpack _). vm_compute. exact I.
Qed.

Lemma ids_unique_after_repeated_pushes :
  NoDup (ids (notifications
                (run Dashboard.step
                   [(offline, Dashboard.NewNotification (sample "a"));
                    (offline, Dashboard.NewNotification (sample "a"));
                    (offline, Dashboard.Mounted);
                    (answering (snapshotOf 3), Dashboard.Mounted);
                    (offline, Dashboard.NewNotification (sample "n2"))]
                   initialStore)))
  /\ NoDup (ids (notifications
                   (run Bell.step
                      [(offline, Bell.NewNotification (sample "a"));
                       (offline, Bell.NewNotification (sample "a"));
                       (answering (snapshotOf 3), Bell.Mounted);
                       (offline, Bell.NewNotification (sample "n2"))]
                      initialStore))).
Proof.
  apply held_ids_stay_unique;
    repeat constructor;
    apply offline_serves_unique_ids || apply snapshot_serves_unique_ids.
Defined.

(** ** Pushes *)

Lemma receiveAll_count capacity incoming s :
  unreadCount (receiveAll capacity incoming s)
  = unreadCount s + Z.of_nat (length incoming).
Proof.
  unfold receiveAll. revert s.
  induction incoming as [|data incoming IH]; intros s; simpl; [lia|].
  rewrite IH. simpl. lia.
Qed.

Lemma receiveAll_ids capacity incoming s i :
  i ∈ ids (notifications (receiveAll capacity incoming s)) ->
  i ∈ ids (notifications s) \/ i ∈ ids incoming.
Proof.
  unfold receiveAll. revert s.
  induction incoming as [|data incoming IH]; intros s; simpl; [by left|].
  intros [Hin|Hin]%IH; [|right; by apply list_elem_of_further].
  unfold receive in Hin. simpl in Hin.
  destruct (bool_decide _); [by left|].
  rewrite ids_take in Hin. apply elem_of_take_elem in Hin.
  change (ids (data :: notifications s))
    with (notification_id data :: ids (notifications s)) in Hin.
  apply elem_of_cons in Hin as [->|Hin]; [right; apply list_elem_of_here | by left].
Qed.

(** X12: the unread counter counts pushed notifications, not held ones:
    after any run of pushes, repeated ids included, it has grown by the
    number of pushes on both surfaces, while every id held afterwards was
    held before or was pushed. *)
Theorem counter_counts_every_push
  (incoming : list CustomerRegistrationNotification) (s : Store) :
  let dashboard := foldl (fun s data => Dashboard.handleNewNotification data s) s incoming in
  let bell := foldl (fun s data => Bell.handleNewNotification data s) s incoming in
  unreadCount dashboard = unreadCount s + Z.of_nat (length incoming)
  /\ unreadCount bell = unreadCount s + Z.of_nat (length incoming)
  /\ (forall i, i ∈ ids (notifications dashboard) ->
        i ∈ ids (notifications s) \/ i ∈ ids incoming)
  /\ (forall i, i ∈ ids (notifications bell) ->
        i ∈ ids (notifications s) \/ i ∈ ids incoming).
Proof.
  simpl. rewrite Dashboard_receiveAll, Bell_receiveAll, !receiveAll_count.
  repeat split; apply receiveAll_ids.
Qed.

Lemma three_pushes_of_one_notification :
  foldl (fun s data => Bell.handleNewNotification data s) initialStore
    [sample "a"; sample "a"; sample "a"]
  = mkStore [sample "a"] 3.
Proof.
  destruct (counter_counts_every_push [sample "a"; sample "a"; sample "a"]
              initialStore) as (_ & Hbell & _).
  destruct (foldl _ initialStore _) as [l c] eqn:Hrun. simpl in Hbell. subst c.
  vm_compute in Hrun. by injection Hrun as <-.
Defined.

(** X13: fed the same pushed notifications, all different, from their empty
    initial state, the two surfaces stay consistent: the dashboard panel
    holds the first ten entries of the bell's list and both counters show
    the number of pushes. *)
Theorem dashboard_shows_head_of_bell
  (incoming : list CustomerRegistrationNotification) :
  NoDup (ids incoming) ->
  let dashboard :=
    foldl (fun s data => Dashboard.handleNewNotification data s) initialStore incoming in
  let bell :=
    foldl (fun s data => Bell.handleNewNotification data s) initialStore incoming in
  notifications dashboard = take 10 (notifications bell)
  /\ unreadCount dashboard = unreadCount bell.
Proof.
  intros Hnd. simpl. rewrite Dashboard_receiveAll, Bell_receiveAll.
  rewrite !receiveAll_count. split; [|done].
  destruct incoming as [|data incoming]; [done|].
  rewrite !receive_all_fresh; try done;
    try (intros i _; apply not_elem_of_nil).
  simpl notifications. rewrite take_take. reflexivity.
Qed.

Lemma surfaces_after_25_pushes :
  notifications
    (foldl (fun s data => Dashboard.handleNewNotification data s) initialStore
       (map sample (numbered 25)))
  = take 10
      (notifications
         (foldl (fun s data => Bell.handleNewNotification data s) initialStore
            (map sample (numbered 25)))).
Proof.
  apply (dashboard_shows_head_of_bell (map sample (numbered 25))).
  apply (bool_decide_unpack _). vm_compute. exact I.
Defined.

(** ** What the handlers send, and what they swallow *)

Lemma tryCatch_swallows {A : Type} (m : Async A) (a : A) env e :
  (tryCatch m (fun _ => ret a) env).2 <> Rejected e.
Proof.
  unfold tryCatch, ret. destruct (m env) as [calls [x|e'|]]; simpl; congruence.
Qed.

Lemma bind_ret_not_rejected {A B : Type} (m : Async A) (b : B) env e :
  (forall e', (m env).2 <> Rejected e') ->
  (bind m (fun _ => ret b) env).2 <> Rejected e.
Proof.
  intros Hm. unfold bind, ret. specialize (Hm e).
  destruct (m env) as [calls [x|e'|]]; simpl in *; congruence.
Qed.

(** X14: no handler of the two surfaces lets a failure escape: the promise
    of a snapshot load, of a statistics load, of a mark-read action or
    dismissal and of mark-all is never rejected, whatever the network does;
    failures are caught (and only logged). *)
Theorem handlers_never_reject env e :
  (Dashboard.loadNotifications env).2 <> Rejected e
  /\ (forall notificationId customerId actionType,
        (Dashboard.handleNotificationAction notificationId customerId actionType
           env).2 <> Rejected e)
  /\ (Panel.loadQueueStats env).2 <> Rejected e
  /\ (forall today, (Panel.loadDailyStats today env).2 <> Rejected e)
  /\ (Bell.loadNotifications env).2 <> Rejected e
  /\ (forall actionType customerId notificationId,
        (Bell.handleToastAction actionType customerId notificationId env).2
        <> Rejected e)
  /\ (forall notificationId,
        (Bell.handleToastDismiss notificationId env).2 <> Rejected e)
  /\ (forall rendered, (Bell.handleMarkAllAsRead rendered env).2 <> Rejected e).
Proof.
  repeat split; intros.
  - apply tryCatch_swallows.
  - unfold Dashboard.handleNotificationAction.
    destruct (_ || _); [done|].
    apply bind_ret_not_rejected. intros e'. apply tryCatch_swallows.
  - apply tryCatch_swallows.
  - apply tryCatch_swallows.
  - apply tryCatch_swallows.
  - apply bind_ret_not_rejected. intros e'. apply tryCatch_swallows.
  - apply bind_ret_not_rejected. intros e'. apply tryCatch_swallows.
  - apply tryCatch_swallows.
Qed.

(** X15: the dashboard's action handler does nothing at all for an empty
    notification id or for a customer id that is [NaN], zero or negative:
    no mark-read request is sent and the store is left as it was. *)
Theorem dashboard_action_guard notificationId customerId actionType env s :
  notificationId = "" \/ customerId = None
  \/ (exists c, customerId = Some c /\ c <= 0) ->
  (Dashboard.handleNotificationAction notificationId customerId actionType env).1
  = []
  /\ settle (Dashboard.handleNotificationAction notificationId customerId
               actionType env) s
     = s.
Proof.
  intros Hguard.
  rewrite Dashboard_action_guarded; [done|].
  destruct Hguard as [-> | [-> | (c & -> & Hc)]]; [by left | by right |].
  right. unfold Dashboard.invalidCustomerId.
  apply orb_true_iff. right. by apply Z.leb_le.
Qed.

Lemma action_with_customer_zero :
  settle (Dashboard.handleNotificationAction "a" (Some 0) "view_customer" offline)
    twoHeld
  = twoHeld.
Proof.
  apply (dashboard_action_guard "a" (Some 0) "view_customer" offline twoHeld).
  right. right. exists 0. split; [reflexivity | lia].
Defined.

(** X16: past its guard, the dashboard's action handler sends exactly one
    mark-read request and removes the notification locally only once that
    request has settled: a failed request does not undo or prevent the
    removal, and a request that never settles leaves the notification in
    the list, since this request carries no timeout. *)
Theorem dashboard_action_waits_for_request
  notificationId customerId actionType env s :
  notificationId <> "" ->
  0 < customerId ->
  let run :=
    Dashboard.handleNotificationAction notificationId (Some customerId)
      actionType env in
  let reply :=
    network env (url (dashboardMarkReadCall env notificationId))
      (init (dashboardMarkReadCall env notificationId)) in
  run.1 = [dashboardMarkReadCall env notificationId]
  /\ (reply = Hangs -> run.2 = Pending /\ settle run s = s)
  /\ (forall ms e, reply = Fails ms e -> settle run s = removeRead notificationId s)
  /\ (forall ms r, reply = Responds ms r -> settle run s = removeRead notificationId s).
Proof.
  intros Hid Hc. simpl.
  unfold Dashboard.handleNotificationAction.
  rewrite bool_decide_eq_false_2 by done. simpl.
  replace (customerId =? 0) with false by (symmetry; apply Z.eqb_neq; lia).
  replace (customerId <=? 0) with false by (symmetry; apply Z.leb_gt; lia).
  simpl. unfold settle, tryCatch, bind, fetchAsync, fetch, ret. simpl.
  destruct (network env _ _) as [ms r|ms e|]; simpl;
    repeat split; try done; intros; discriminate.
Qed.

Lemma action_against_silent_backend :
  settle (Dashboard.handleNotificationAction "a" (Some 7) "view_customer" silent)
    twoHeld
  = twoHeld
  /\ settle (Dashboard.handleNotificationAction "a" (Some 7) "view_customer"
               offline) twoHeld
     = mkStore [sample "b"] 1.
Proof.
  split.
  - destruct (dashboard_action_waits_for_request "a" 7 "view_customer" silent
                twoHeld) as (_ & Hhang & _); [done | lia |].
    by apply Hhang.
  - destruct (dashboard_action_waits_for_request "a" 7 "view_customer" offline
                twoHeld) as (_ & _ & Hfail & _); [done | lia |].
    by rewrite (Hfail 5 (ErrorObj "TypeError" "Failed to fetch")).
Defined.

Lemma bind_calls {A B : Type} (m : Async A) (k : A -> Async B) env :
  (bind m k env).1
  = (m env).1 ++ match (m env).2 with
                 | Fulfilled a => (k a env).1
                 | _ => []
                 end.
Proof.
  unfold bind. destruct (m env) as [calls [a|e|]]; simpl; [|by rewrite app_nil_r..].
  by destruct (k a env).
Qed.

Lemma single_fetch_calls {A : Type} (c : FetchCall) (k : Response -> Async A)
  (a : A) env :
  (forall r, (k r env).1 = []) ->
  (tryCatch (bind (fetchAsync c) k) (fun _ => ret a) env).1 = [c].
Proof.
  intros Hk. unfold tryCatch, bind, fetchAsync, ret. simpl.
  destruct (fetch env c) as [r|e|]; simpl; [|done|done].
  specialize (Hk r). destruct (k r env) as [calls [x|e|]]; simpl in *; by subst.
Qed.

Lemma responseJson_calls response env : (Api.responseJson response env).1 = [].
Proof. reflexivity. Qed.

(** X17: every request the dashboard panel sends (snapshot, queue
    statistics, daily statistics, mark-read) is a single [fetch] to its own
    base URL that carries exactly one header, [Authorization: Bearer
    <token>], with the text [null] in place of a token that is not stored,
    and no abort signal. *)
Theorem dashboard_requests_carry_bearer env today notificationId customerId
  actionType :
  let auth : gmap string string :=
    {[ "Authorization" := "Bearer " +:+ default "null" (accessToken env) ]} in
  let get path :=
    [mkCall (Dashboard.baseUrl env +:+ path)
       (mkInit None (HeadersObject auth) None) None] in
  (Dashboard.loadNotifications env).1 = get "/customer-notifications/active"
  /\ (Panel.loadQueueStats env).1 = get "/queue/stats"
  /\ (Panel.loadDailyStats today env).1
     = get ("/transactions/reports/daily?date=" +:+ today)
  /\ (notificationId <> "" -> 0 < customerId ->
      (Dashboard.handleNotificationAction notificationId (Some customerId)
         actionType env).1
      = [mkCall (Dashboard.baseUrl env +:+ "/customer-notifications/"
                 +:+ notificationId +:+ "/mark-read")
           (mkInit (Some "POST") (HeadersObject auth) None) None])
  /\ (accessToken env = None -> auth !! "Authorization" = Some "Bearer null").
Proof.
  simpl. split; [|split; [|split; [|split]]].
  - unfold Dashboard.loadNotifications. apply single_fetch_calls. intros r.
    destruct (ok r); [|done]. unfold bind, Api.responseJson.
    destruct (json r) as [j|e|]; [|done|done].
    unfold ret. repeat case_match; by simplify_eq/=.
  - unfold Panel.loadQueueStats. apply single_fetch_calls. intros r.
    destruct (ok r); [|done]. unfold bind, Api.responseJson.
    by destruct (json r) as [j|e|].
  - unfold Panel.loadDailyStats. apply single_fetch_calls. intros r.
    destruct (ok r); [|done]. unfold bind, Api.responseJson.
    destruct (json r) as [j|e|]; [|done|done].
    by destruct j.
  - intros Hid Hc. unfold Dashboard.handleNotificationAction.
    rewrite bool_decide_eq_false_2 by done. simpl.
    replace (customerId =? 0) with false by (symmetry; apply Z.eqb_neq; lia).
    replace (customerId <=? 0) with false by (symmetry; apply Z.leb_gt; lia).
    simpl. unfold tryCatch, bind, fetchAsync, ret. simpl.
    by destruct (fetch env _) as [r|e|].
  - intros Htoken. rewrite Htoken. apply lookup_singleton_eq.
Qed.

Lemma signed_out_dashboard_requests :
  (Dashboard.handleNotificationAction "a" (Some 7) "view_customer" signedOut).1
  = [mkCall "http://localhost:5000/api/customer-notifications/a/mark-read"
       (mkInit (Some "POST")
          (HeadersObject {[ "Authorization" := "Bearer null" ]}) None) None].
Proof.
  destruct (dashboard_requests_carry_bearer signedOut "2024-05-01" "a" 7
              "view_customer") as (_ & _ & _ & Haction & _).
  rewrite Haction; [reflexivity | done | lia].
Defined.

(** ** Relative times *)

(** X18: [formatTimeAgo] shows the whole number of elapsed minutes, hours or
    days, never zero of a unit: under a minute (a timestamp in the future
    included) it says [Just now], then minutes from 1 to 59, hours from 1 to
    23, and days from 1 on. *)
Theorem time_ago_shows_whole_units (now t : Z) :
  (now - t < 60000 -> Panel.formatTimeAgo now (Some t) = "Just now")
  /\ (60000 <= now - t < 3600000 ->
      Panel.formatTimeAgo now (Some t) = pretty ((now - t) / 60000) +:+ "m ago"
      /\ 1 <= (now - t) / 60000 <= 59)
  /\ (3600000 <= now - t < 86400000 ->
      Panel.formatTimeAgo now (Some t) = pretty ((now - t) / 3600000) +:+ "h ago"
      /\ 1 <= (now - t) / 3600000 <= 23)
  /\ (86400000 <= now - t ->
      Panel.formatTimeAgo now (Some t) = pretty ((now - t) / 86400000) +:+ "d ago"
      /\ 1 <= (now - t) / 86400000).
Proof.
  unfold Panel.formatTimeAgo. set (d := now - t).
  assert (Hh : d / 60000 / 60 = d / 3600000) by (rewrite Z.div_div by lia; done).
  assert (Hd : d / 60000 / 60 / 24 = d / 86400000)
    by (rewrite !Z.div_div by lia; done).
  assert (Hmin : forall k, 0 < k -> forall a b, a * k <= d < b * k -> a <= d / k < b).
  { intros k Hk a b [Ha Hb]. split.
    - apply Z.div_le_lower_bound; lia.
    - apply Z.div_lt_upper_bound; lia. }
  split; [|split; [|split]].
  - intros Hlt.
    assert (d / 60000 < 1) by (apply Z.div_lt_upper_bound; lia).
    by replace (d / 60000 <? 1) with true by (symmetry; apply Z.ltb_lt; lia).
  - intros Hrange. destruct (Hmin 60000 ltac:(lia) 1 60 ltac:(lia)).
    replace (d / 60000 <? 1) with false by (symmetry; apply Z.ltb_ge; lia).
    replace (d / 60000 <? 60) with true by (symmetry; apply Z.ltb_lt; lia).
    split; [done | lia].
  - intros Hrange. destruct (Hmin 60000 ltac:(lia) 60 1440 ltac:(lia)).
    destruct (Hmin 3600000 ltac:(lia) 1 24 ltac:(lia)).
    replace (d / 60000 <? 1) with false by (symmetry; apply Z.ltb_ge; lia).
    replace (d / 60000 <? 60) with false by (symmetry; apply Z.ltb_ge; lia).
    rewrite Hh.
    replace (d / 3600000 <? 24) with true by (symmetry; apply Z.ltb_lt; lia).
    split; [done | lia].
  - intros Hrange.
    assert (60 <= d / 60000) by (apply Z.div_le_lower_bound; lia).
    assert (24 <= d / 3600000) by (apply Z.div_le_lower_bound; lia).
    assert (1 <= d / 86400000) by (apply Z.div_le_lower_bound; lia).
    replace (d / 60000 <? 1) with false by (symmetry; apply Z.ltb_ge; lia).
    replace (d / 60000 <? 60) with false by (symmetry; apply Z.ltb_ge; lia).
    rewrite Hd, Hh.
    replace (d / 3600000 <? 24) with false by (symmetry; apply Z.ltb_ge; lia).
    split; [done | lia].
Qed.

Lemma time_ago_at_the_boundaries :
  Panel.formatTimeAgo 1000 (Some 5000) = "Just now"
  /\ Panel.formatTimeAgo 3599999 (Some 0) = "59m ago"
  /\ Panel.formatTimeAgo 3600000 (Some 0) = "1h ago"
  /\ Panel.formatTimeAgo 86400000 (Some 0) = "1d ago".
Proof.
  destruct (time_ago_shows_whole_units 1000 5000) as (Hnow & _).
  destruct (time_ago_shows_whole_units 3599999 0) as (_ & Hmin & _).
  destruct (time_ago_shows_whole_units 3600000 0) as (_ & _ & Hhour & _).
  destruct (time_ago_shows_whole_units 86400000 0) as (_ & _ & _ & Hday).
  split; [apply Hnow; lia|].
  split; [rewrite (proj1 (Hmin ltac:(lia))); reflexivity|].
  split; [rewrite (proj1 (Hhour ltac:(lia))); reflexivity|].
  rewrite (proj1 (Hday ltac:(lia))); reflexivity.
Defined.

(** ** Queue and daily statistics *)

Lemma assoc_app k (l1 l2 : list (string * JSON)) :
  assoc k (l1 ++ l2)
  = match assoc k l1 with Some v => Some v | None => assoc k l2 end.
Proof.
  induction l1 as [|[k' v] l1 IH]; simpl; [done|].
  by destruct (bool_decide (k' = k)).
Qed.

Lemma queue_update_read data prev k :
  prop k (Panel.handleQueueUpdate data prev)
  = match assoc k (Panel.ownProps data) with
    | Some v => Some v
    | None => assoc k (Panel.ownProps prev)
    end.
Proof. unfold Panel.handleQueueUpdate. simpl. apply assoc_app. Qed.

(** X19: queue updates merge field by field. After two updates a field
    reads as the later update gave it, else as the earlier one did, else as
    it was; applying the same update twice reads like applying it once; an
    update without fields ([{}] or [null]) changes no field; and no update
    removes a field. *)
Theorem queue_updates_merge (a b prev : JSON) (k : string) :
  prop k (Panel.handleQueueUpdate b (Panel.handleQueueUpdate a prev))
  = match assoc k (Panel.ownProps b) with
    | Some v => Some v
    | None =>
        match assoc k (Panel.ownProps a) with
        | Some v => Some v
        | None => assoc k (Panel.ownProps prev)
        end
    end
  /\ prop k (Panel.handleQueueUpdate a (Panel.handleQueueUpdate a prev))
     = prop k (Panel.handleQueueUpdate a prev)
  /\ prop k (Panel.handleQueueUpdate (JObj []) prev) = assoc k (Panel.ownProps prev)
  /\ prop k (Panel.handleQueueUpdate JNull prev) = assoc k (Panel.ownProps prev)
  /\ (is_Some (assoc k (Panel.ownProps prev)) ->
      is_Some (prop k (Panel.handleQueueUpdate a prev))).
Proof.
  rewrite !queue_update_read. simpl.
  change (Panel.ownProps (Panel.handleQueueUpdate a prev))
    with (Panel.ownProps a ++ Panel.ownProps prev).
  rewrite !assoc_app.
  repeat split; by destruct (assoc k (Panel.ownProps a)).
Qed.

Lemma partial_queue_update :
  prop "totalWaiting"
    (Panel.handleQueueUpdate (JObj [("totalWaiting", JNum 4)])
       Panel.initialQueueStats)
  = Some (JNum 4)
  /\ is_Some (prop "averageWaitTime"
                (Panel.handleQueueUpdate (JObj [("totalWaiting", JNum 4)])
                   Panel.initialQueueStats)).
Proof.
  destruct (queue_updates_merge (JObj [("totalWaiting", JNum 4)]) JNull
              Panel.initialQueueStats "averageWaitTime")
    as (_ & _ & _ & _ & Hkeeps).
  split; [reflexivity|]. apply Hkeeps. by eexists.
Defined.

(** X20: a load of the queue statistics replaces the whole record by the
    body of a successful JSON response, whatever the record held, and
    leaves it untouched when the response has an error status, when its
    body is not JSON, cannot be read or never ends, and when the request
    fails or is never answered. *)
Theorem queue_stats_replaced_or_kept env (stats : JSON) :
  let reply :=
    network env (Dashboard.baseUrl env +:+ "/queue/stats")
      (mkInit None (HeadersObject (Dashboard.authorization env)) None) in
  let after := Panel.settled (Panel.loadQueueStats env) stats in
  (forall ms r data,
      reply = Responds ms r -> ok r = true -> json r = Fulfilled data ->
      after = data)
  /\ (forall ms r,
        reply = Responds ms r ->
        ok r = false \/ (forall data, json r <> Fulfilled data) ->
        after = stats)
  /\ (forall ms e, reply = Fails ms e -> after = stats)
  /\ (reply = Hangs -> after = stats).
Proof.
  simpl. unfold Panel.settled, Panel.loadQueueStats, tryCatch, bind, fetchAsync,
    fetch, Api.responseJson, ret, throw. simpl.
  destruct (network env _ _) as [ms r|ms e|]; simpl.
  - split; [|split; [|split]]; try (intros; discriminate).
    + intros ms' r' data [= <- <-] Hok Hjson. by rewrite Hok, Hjson.
    + intros ms' r' [= <- <-] [Hok|Hjson].
      * by rewrite Hok.
      * destruct (ok r); [|done]. simpl.
        destruct (json r) as [data|e|]; [by destruct (Hjson data) | done | done].
  - split; [|split; [|split]]; try (intros; discriminate). done.
  - split; [|split; [|split]]; try (intros; discriminate). done.
Qed.

Lemma queue_stats_after_a_load :
  Panel.settled (Panel.loadQueueStats (serving (JObj [("totalWaiting", JNum 9)])))
    Panel.initialQueueStats
  = JObj [("totalWaiting", JNum 9)]
  /\ Panel.settled (Panel.loadQueueStats (answering serverError))
       Panel.initialQueueStats
     = Panel.initialQueueStats.
Proof.
  split.
  - by apply (proj1 (queue_stats_replaced_or_kept
                       (serving (JObj [("totalWaiting", JNum 9)]))
                       Panel.initialQueueStats)
                20 (mkResponse 200 "OK" (Fulfilled (JObj [("totalWaiting", JNum 9)])))).
  - apply (proj1 (proj2 (queue_stats_replaced_or_kept (answering serverError)
                           Panel.initialQueueStats)) 20 serverError);
      [done | by left].
Defined.

Lemma orZero_displayable v : displayable (Panel.orZero v).
Proof.
  unfold displayable, Panel.orZero. destruct v as [j|]; [|by right].
  destruct (truthy (Some j)) eqn:Hj; [by left | by right].
Qed.

(** X21: the daily statistics never hold a value that cannot be displayed.
    A load either leaves them as they were (error status, body that is not
    read as JSON or is [null], failure, no answer) or sets every field to the
    field of the body when that is truthy and to zero otherwise, so from
    the initial zeros on every field is a truthy value or zero; a body
    without any of the five fields gives all zeros. *)
Theorem daily_stats_stay_displayable today env (stats : Panel.DailyStats) :
  (allDisplayable stats ->
   allDisplayable (Panel.settled (Panel.loadDailyStats today env) stats))
  /\ (forall ms r data,
        network env
          (Dashboard.baseUrl env +:+ "/transactions/reports/daily?date=" +:+ today)
          (mkInit None (HeadersObject (Dashboard.authorization env)) None)
        = Responds ms r ->
        ok r = true -> json r = Fulfilled data -> data <> JNull ->
        Panel.settled (Panel.loadDailyStats today env) stats
        = Panel.mkDaily (Panel.orZero (prop "totalTransactions" data))
            (Panel.orZero (prop "totalAmount" data))
            (Panel.orZero (prop "paidTransactions" data))
            (Panel.orZero (prop "unpaidTransactions" data))
            (Panel.orZero (prop "registeredCustomers" data)))
  /\ allDisplayable Panel.initialDailyStats.
Proof.
  split; [|split].
  - intros Hstats.
    unfold Panel.settled, Panel.loadDailyStats, tryCatch, bind, fetchAsync,
      Api.responseJson, ret, throw. simpl.
    destruct (fetch env _) as [r|e|]; simpl; [|done|done].
    destruct (ok r); simpl; [|done].
    destruct (json r) as [data|e'|]; simpl; [|done|done].
    destruct data; simpl; try done;
      repeat split; first [apply orZero_displayable | by right].
  - intros ms r data Hnet Hok Hjson Hnull.
    unfold Panel.settled, Panel.loadDailyStats, tryCatch, bind, fetchAsync,
      fetch, Api.responseJson, ret, throw. simpl.
    rewrite Hnet. simpl. rewrite Hok, Hjson. simpl.
    by destruct data.
  - repeat split; by right.
Qed.

Lemma daily_stats_of_a_sparse_report :
  Panel.settled
    (Panel.loadDailyStats "2024-05-01"
       (serving (JObj [("totalTransactions", JNum 12); ("totalAmount", JNull)])))
    Panel.initialDailyStats
  = Panel.mkDaily (JNum 12) (JNum 0) (JNum 0) (JNum 0) (JNum 0)
  /\ allDisplayable
       (Panel.settled (Panel.loadDailyStats "2024-05-01" (serving JNull))
          Panel.initialDailyStats).
Proof.
  destruct (daily_stats_stay_displayable "2024-05-01"
              (serving (JObj [("totalTransactions", JNum 12); ("totalAmount", JNull)]))
              Panel.initialDailyStats) as (_ & Hset & _).
  destruct (daily_stats_stay_displayable "2024-05-01" (serving JNull)
              Panel.initialDailyStats) as (Hkeep & _ & Hinit).
  split; [|by apply Hkeep].
  by rewrite (Hset 20 _ (JObj [("totalTransactions", JNum 12); ("totalAmount", JNull)])
                eq_refl eq_refl eq_refl).
Defined.

(** ** Snapshot loads, all or nothing *)

(** X22: a snapshot load sets the list and the counter together or leaves
    both alone. When it has changed the store, the bell's counter equals
    the length of its list, and the dashboard's list has as many entries as
    its counter says, up to ten. *)
Theorem snapshot_sets_list_and_counter_together env s :
  (settle (Dashboard.loadNotifications env) s = s
   \/ Z.of_nat (length (notifications (settle (Dashboard.loadNotifications env) s)))
      = Z.min 10 (unreadCount (settle (Dashboard.loadNotifications env) s)))
  /\ (settle (Bell.loadNotifications env) s = s
      \/ unreadCount (settle (Bell.loadNotifications env) s)
         = Z.of_nat (length (notifications (settle (Bell.loadNotifications env) s)))).
Proof.
  split.
  - destruct (Dashboard_load_cases env s) as [->|[l ->]]; [by left|right].
    simpl. rewrite length_take. lia.
  - destruct (Bell_load_cases env s) as [->|[l ->]]; [by left|by right].
Qed.

(** X23: a snapshot load that does not succeed keeps the store. On the
    bell this covers a request that is rejected (network failure or
    timeout), an error status, and a body that is not read as JSON (it is
    not JSON, cannot be read or never ends) or does not report success; on
    the dashboard a failed or unanswered request, an error status, and such
    a body. *)
Theorem failed_snapshot_keeps_store env s :
  (forall e,
      (Api.authenticatedApiRequest "/customer-notifications/active"
         (Api.withMethod "GET" None) env).2 = Rejected e ->
      settle (Bell.loadNotifications env) s = s)
  /\ (forall r,
        (Api.authenticatedApiRequest "/customer-notifications/active"
           (Api.withMethod "GET" None) env).2 = Fulfilled r ->
        ok r = false
        \/ (forall body, json r <> Fulfilled body)
        \/ (exists body, json r = Fulfilled body
                         /\ success (asActiveNotifications body) = false) ->
        settle (Bell.loadNotifications env) s = s)
  /\ (forall reply,
        network env (Dashboard.baseUrl env +:+ "/customer-notifications/active")
          (mkInit None (HeadersObject (Dashboard.authorization env)) None)
        = reply ->
        match reply with
        | Responds _ r =>
            ok r = false
            \/ (forall body, json r <> Fulfilled body)
            \/ (exists body, json r = Fulfilled body
                             /\ success (asActiveNotifications body) = false)
        | _ => True
        end ->
        settle (Dashboard.loadNotifications env) s = s).
Proof.
  split; [|split].
  - intros e Hrun. unfold Bell.loadNotifications, settle, tryCatch, bind.
    destruct (Api.authenticatedApiRequest _ _ env) as [calls o].
    simpl in Hrun. by subst o.
  - intros r Hrun Hbad. unfold Bell.loadNotifications, settle, tryCatch, bind.
    destruct (Api.authenticatedApiRequest _ _ env) as [calls o].
    simpl in Hrun. subst o.
    destruct (Api.parseApiResponse r env) as [calls' [data|e|]] eqn:Hparse;
      simpl; [|done|done].
    assert (Hdata : ok r = true /\ json r = Fulfilled data).
    { apply (parseApiResponse_fulfilled r env data). by rewrite Hparse. }
    destruct Hdata as [Hyes Hjson].
    destruct Hbad as [Hok | [Hnot | (body & Hbody & Hsuccess)]].
    + congruence.
    + by destruct (Hnot data).
    + assert (body = data) as -> by congruence.
      unfold asActiveNotifications in *. simpl in *. by rewrite Hsuccess.
  - intros reply Hnet Hbad.
    unfold Dashboard.loadNotifications, settle, tryCatch, bind, fetchAsync, fetch,
      Api.responseJson.
    simpl. rewrite Hnet. destruct reply as [ms r|ms e|]; simpl; [|done|done].
    destruct Hbad as [Hok | [Hnot | (body & Hjson & Hsuccess)]].
    + by rewrite Hok.
    + destruct (ok r); [|done]. simpl.
      destruct (json r) as [data|e|]; [by destruct (Hnot data) | done | done].
    + rewrite Hjson. destruct (ok r); simpl; [|done].
      unfold asActiveNotifications in *. simpl in *. by rewrite Hsuccess.
Qed.

Lemma snapshot_load_while_offline :
  settle (Bell.loadNotifications offline) twoHeld = twoHeld
  /\ settle (Dashboard.loadNotifications (answering serverError)) twoHeld = twoHeld.
Proof.
  destruct (failed_snapshot_keeps_store offline twoHeld) as (Hbell & _ & _).
  destruct (failed_snapshot_keeps_store (answering serverError) twoHeld)
    as (_ & _ & Hdash).
  split.
  - apply (Hbell (ErrorObj "TypeError" "Failed to fetch")). vm_compute. reflexivity.
  - apply (Hdash (Responds 20 serverError)); [reflexivity | by left].
Defined.

(** ** Marking read more than once *)

(** X24: removing a notification is idempotent on the list but not on the
    counter: when the bell has handled a toast action for an id and then
    receives the marked-read event for the same id, the list is what the
    action left, and the counter has gone down twice (not below zero). *)
Theorem marked_read_event_after_action_counts_twice
  actionType customerId notificationId env s :
  let once :=
    settle (Bell.handleToastAction actionType customerId notificationId env) s in
  let twice := Bell.handleNotificationRead notificationId once in
  notifications twice = notifications once
  /\ unreadCount once = Z.max 0 (unreadCount s - 1)
  /\ unreadCount twice = Z.max 0 (unreadCount s - 2).
Proof.
  simpl. rewrite Bell_toast_action.
  unfold Bell.handleNotificationRead, setNotifications, setUnreadCount. simpl.
  split; [|split; [done | lia]].
  rewrite list_filter_filter. apply list_filter_iff. tauto.
Qed.

(** ** The bell's popover *)

Lemma find_by_id rendered notificationId :
  match List.find (fun n => bool_decide (notification_id n = notificationId))
          rendered with
  | Some n => n ∈ rendered /\ notification_id n = notificationId
  | None => notificationId ∉ ids rendered
  end.
Proof.
  induction rendered as [|m rendered IH]; simpl; [apply not_elem_of_nil|].
  destruct (bool_decide (notification_id m = notificationId)) eqn:Hm.
  - apply bool_decide_eq_true in Hm. split; [apply list_elem_of_here | done].
  - apply bool_decide_eq_false in Hm.
    destruct (List.find _ rendered) as [n|].
    + destruct IH as [Hin Hid]. split; [by apply list_elem_of_further | done].
    + change (ids (m :: rendered)) with (notification_id m :: ids rendered).
      apply not_elem_of_cons. split; [congruence | done].
Qed.

(** X25: clicking an entry of the dropdown selects a notification only if
    one with that id is in the rendered list: then the popover closes and
    the toast shows an entry of the list carrying that id; for an id that
    is not in the list nothing changes. *)
Theorem click_selects_a_held_notification rendered notificationId customerId v :
  (notificationId ∉ ids rendered ->
   BellView.handleNotificationClick rendered notificationId customerId v = v)
  /\ (notificationId ∈ ids rendered ->
      exists n,
        BellView.handleNotificationClick rendered notificationId customerId v
        = BellView.mkView false (Some n)
        /\ n ∈ rendered
        /\ notification_id n = notificationId).
Proof.
  unfold BellView.handleNotificationClick.
  pose proof (find_by_id rendered notificationId) as Hfind.
  destruct (List.find _ rendered) as [n|].
  - destruct Hfind as [Hin Hid]. split.
    + intros Hout. exfalso. apply Hout. unfold ids.
      apply list_elem_of_fmap. by exists n.
    + intros _. by exists n.
  - split; [done | by intros Hin].
Qed.

Lemma click_in_the_dropdown :
  BellView.handleNotificationClick (notifications twoHeld) "b" 7
    (BellView.mkView true None)
  = BellView.mkView false (Some (sample "b"))
  /\ BellView.handleNotificationClick (notifications twoHeld) "zzz" 7
       (BellView.mkView true None)
     = BellView.mkView true None.
Proof.
  destruct (click_selects_a_held_notification (notifications twoHeld) "zzz" 7
              (BellView.mkView true None)) as [Habsent _].
  split; [reflexivity|].
  apply Habsent. apply (bool_decide_unpack _). vm_compute. exact I.
Defined.

(** ** The live channel *)

Lemma removeFirst_middle x (l r : list (string * Channel.Listener)) :
  x ∉ l -> Channel.removeFirst x (l ++ x :: r) = l ++ r.
Proof.
  induction l as [|y l IH]; intros Hx; simpl.
  - by rewrite decide_True.
  - apply not_elem_of_cons in Hx as [Hne Hx].
    rewrite decide_False by congruence. by rewrite IH.
Qed.

Lemma release_two (s : Channel.Socket) e1 l1 e2 l2 :
  (e1, l1) ∉ Channel.listeners s ->
  (e2, l2) ∉ Channel.listeners s ->
  (e1, l1) <> (e2, l2) ->
  Channel.listeners
    (Channel.off e2 l2 (Channel.off e1 l1 (Channel.on e2 l2 (Channel.on e1 l1 s))))
  = Channel.listeners s.
Proof.
  intros H1 H2 Hne. simpl.
  rewrite <- app_assoc. simpl.
  rewrite removeFirst_middle by done.
  rewrite removeFirst_middle by done.
  apply app_nil_r.
Qed.

(** X26: every effect gives back what it took: when the cleanup of an
    effect runs, the socket's listeners are again what they were before the
    effect ran (the effect's listeners being new function objects), for the
    connection effect and the notification effect of both surfaces; a
    cleanup sends no message; and for a user who is not a cashier the
    bell's effects register nothing and send nothing. *)
Theorem effects_release_their_listeners (run : nat) (isEnabled : bool)
  (s : Channel.Socket) (flag : bool) :
  freshFor Channel.DashboardSurface run s ->
  freshFor Channel.BellSurface run s ->
  Channel.listeners
    (Channel.dashboardConnectionCleanup run
       (Channel.socket (Channel.dashboardConnectionEffect run (Channel.mkLink s flag))))
  = Channel.listeners s
  /\ Channel.listeners
       (Channel.dashboardNotificationCleanup run
          (Channel.dashboardNotificationEffect run s))
     = Channel.listeners s
  /\ Channel.listeners
       (Channel.bellConnectionCleanup isEnabled run
          (Channel.socket
             (Channel.bellConnectionEffect isEnabled run (Channel.mkLink s flag))))
     = Channel.listeners s
  /\ Channel.listeners
       (Channel.bellNotificationCleanup isEnabled run
          (Channel.bellNotificationEffect isEnabled run s))
     = Channel.listeners s
  /\ (forall s', Channel.emitted (Channel.dashboardConnectionCleanup run s')
                 = Channel.emitted s'
                 /\ Channel.emitted (Channel.dashboardNotificationCleanup run s')
                    = Channel.emitted s'
                 /\ Channel.emitted (Channel.bellConnectionCleanup isEnabled run s')
                    = Channel.emitted s'
                 /\ Channel.emitted (Channel.bellNotificationCleanup isEnabled run s')
                    = Channel.emitted s')
  /\ Channel.bellConnectionEffect false run (Channel.mkLink s flag)
     = Channel.mkLink s flag
  /\ Channel.bellNotificationEffect false run s = s.
Proof.
  intros Hd Hb.
  split; [|split; [|split; [|split; [|split; [|split]]]]].
  - unfold Channel.dashboardConnectionEffect, Channel.dashboardConnectionCleanup.
    simpl Channel.socket.
    destruct (Channel.connected _); simpl Channel.socket;
      apply (release_two s); (apply Hd || done).
  - unfold Channel.dashboardNotificationEffect, Channel.dashboardNotificationCleanup.
    apply (release_two s); (apply Hd || done).
  - unfold Channel.bellConnectionEffect, Channel.bellConnectionCleanup.
    destruct isEnabled; simpl negb; cbv iota; [|done].
    simpl Channel.socket.
    destruct (Channel.connected _); simpl Channel.socket;
      apply (release_two s); (apply Hb || done).
  - unfold Channel.bellNotificationEffect, Channel.bellNotificationCleanup.
    destruct isEnabled; simpl negb; cbv iota; [|done].
    apply (release_two s); (apply Hb || done).
  - intros s'. destruct isEnabled; done.
  - done.
  - done.
Qed.

Lemma deliver_to_mounted (sf : Channel.Surface) (run : nat) (event : string)
  (c : bool) (em : list string) (flag : bool) :
  let registered :=
    [("connect", Channel.mkListener sf run Channel.HandleConnect);
     ("disconnect", Channel.mkListener sf run Channel.HandleDisconnect)] in
  let topics :=
    match sf with
    | Channel.DashboardSurface => dashboardTopics
    | Channel.BellSurface => bellTopics
    end in
  Channel.deliver (sf, run) event
    (Channel.mkLink (Channel.mkSocket c registered em) flag)
  = Channel.mkLink
      (Channel.mkSocket (connectionAfter [event] c) registered
         (em ++ subscriptionsOver topics [event]))
      (connectionAfter [event] flag).
Proof.
  simpl. unfold Channel.deliver, Channel.listening, connectionAfter,
    subscriptionsOver. simpl.
  rewrite !filter_cons, filter_nil. simpl.
  destruct (decide (event = "connect")) as [->|Hc].
  { simpl. unfold Channel.call. simpl.
    rewrite bool_decide_eq_true_2 by done.
    destruct sf; unfold Channel.dashboardHandleConnect, Channel.bellHandleConnect,
      Channel.emit; simpl; by rewrite <- ?app_assoc. }
  rewrite (bool_decide_eq_false_2 (event = "connect")) by done.
  rewrite decide_False by congruence.
  destruct (decide (event = "disconnect")) as [->|Hd].
  { simpl. unfold Channel.call. simpl.
    rewrite bool_decide_eq_true_2 by done.
    destruct sf; simpl; by rewrite app_nil_r. }
  rewrite (bool_decide_eq_false_2 (event = "disconnect")) by done.
  rewrite decide_False by congruence. simpl. by rewrite app_nil_r.
Qed.

Lemma connectionAfter_app events1 events2 start :
  connectionAfter (events1 ++ events2) start
  = connectionAfter events2 (connectionAfter events1 start).
Proof. unfold connectionAfter. apply foldl_app. Qed.

Lemma subscriptionsOver_app topics events1 events2 :
  subscriptionsOver topics (events1 ++ events2)
  = subscriptionsOver topics events1 ++ subscriptionsOver topics events2.
Proof. unfold subscriptionsOver. by rewrite map_app, concat_app. Qed.

Lemma deliverAll_mounted (sf : Channel.Surface) (run : nat) (events : list string) :
  forall (c : bool) (em : list string) (flag : bool),
  let registered :=
    [("connect", Channel.mkListener sf run Channel.HandleConnect);
     ("disconnect", Channel.mkListener sf run Channel.HandleDisconnect)] in
  let topics :=
    match sf with
    | Channel.DashboardSurface => dashboardTopics
    | Channel.BellSurface => bellTopics
    end in
  deliverAll (sf, run) events
    (Channel.mkLink (Channel.mkSocket c registered em) flag)
  = Channel.mkLink
      (Channel.mkSocket (connectionAfter events c) registered
         (em ++ subscriptionsOver topics events))
      (connectionAfter events flag).
Proof.
  induction events as [|event events IH]; intros c em flag.
  - simpl. unfold subscriptionsOver. simpl. by rewrite app_nil_r.
  - change (event :: events) with ([event] ++ events).
    unfold deliverAll in *. rewrite foldl_app.
    change (foldl _ ?k [event]) with (Channel.deliver (sf, run) event k).
    rewrite (deliver_to_mounted sf run event c em flag).
    cbv zeta in *. rewrite IH.
    by rewrite !connectionAfter_app, subscriptionsOver_app, app_assoc.
Qed.

(** X27: a surface mounted on a socket of its own subscribes once per
    connection and follows the connection state. After the connection
    effect has run and the socket has gone through any sequence of events,
    the messages sent are the surface's topics once if the socket was
    connected at mount and once more for every connect event (none for a
    disconnect: nothing is unsubscribed), and [isConnected] is what the
    last connect or disconnect event says. *)
Theorem connection_follows_events (run : nat) (events : list string)
  (c : bool) (em : list string) (flag : bool) :
  let start := Channel.mkLink (Channel.mkSocket c [] em) flag in
  let dashboard :=
    deliverAll (Channel.DashboardSurface, run) events
      (Channel.dashboardConnectionEffect run start) in
  let bell :=
    deliverAll (Channel.BellSurface, run) events
      (Channel.bellConnectionEffect true run start) in
  (Channel.emitted (Channel.socket dashboard)
   = em ++ (if c then dashboardTopics else [])
        ++ subscriptionsOver dashboardTopics events
   /\ Channel.isConnected dashboard = connectionAfter events (c || flag))
  /\ (Channel.emitted (Channel.socket bell)
      = em ++ (if c then bellTopics else []) ++ subscriptionsOver bellTopics events
      /\ Channel.isConnected bell = connectionAfter events (c || flag)).
Proof.
  simpl. unfold Channel.dashboardConnectionEffect, Channel.bellConnectionEffect.
  simpl. destruct c; simpl;
    unfold Channel.dashboardHandleConnect, Channel.bellHandleConnect,
      Channel.emit, Channel.on; simpl;
    rewrite (deliverAll_mounted Channel.DashboardSurface),
      (deliverAll_mounted Channel.BellSurface); simpl;
    by rewrite <- ?app_assoc, ?app_nil_r.
Qed.

Example reconnecting_dashboard :
  Channel.emitted
    (Channel.socket
       (deliverAll (Channel.DashboardSurface, 1%nat)
          ["disconnect"; "connect"]
          (Channel.dashboardConnectionEffect 1
             (Channel.mkLink (Channel.mkSocket true [] []) false))))
  = dashboardTopics ++ dashboardTopics.
Proof. vm_compute. reflexivity. Qed.

Lemma effects_on_a_new_socket :
  Channel.listeners
    (Channel.dashboardConnectionCleanup 1
       (Channel.socket
          (Channel.dashboardConnectionEffect 1
             (Channel.mkLink (Channel.mkSocket true [] []) false))))
  = []
  /\ Channel.listeners
       (Channel.bellNotificationCleanup true 1
          (Channel.bellNotificationEffect true 1 (Channel.mkSocket true [] [])))
     = [].
Proof.
  destruct (effects_release_their_listeners 1 true (Channel.mkSocket true [] [])
              false) as (Hdash & _ & _ & Hbell & _).
  - intros event h. apply not_elem_of_nil.
  - intros event h. apply not_elem_of_nil.
  - split; [exact Hdash | exact Hbell].
Defined.

(** ** Snapshots against pushes *)

(** X28: a snapshot that loads replaces the store without looking at it:
    the store after the load is the same whatever was held before, so
    notifications pushed while the request was under way are lost unless
    the snapshot lists them; a load that does not go through leaves each
    store as it was. *)
Theorem snapshot_overrides_earlier_pushes env (s1 s2 : Store) :
  (settle (Dashboard.loadNotifications env) s1
   = settle (Dashboard.loadNotifications env) s2
   \/ (settle (Dashboard.loadNotifications env) s1 = s1
       /\ settle (Dashboard.loadNotifications env) s2 = s2))
  /\ (settle (Bell.loadNotifications env) s1 = settle (Bell.loadNotifications env) s2
      \/ (settle (Bell.loadNotifications env) s1 = s1
          /\ settle (Bell.loadNotifications env) s2 = s2)).
Proof.
  split.
  - unfold Dashboard.loadNotifications, settle, tryCatch, bind, fetchAsync,
      Api.responseJson, ret, throw. simpl.
    destruct (fetch env _) as [r|e|]; simpl; [|by right..].
    destruct (ok r); simpl; [|by right].
    destruct (json r) as [body|e|]; simpl; [|by right..].
    destruct (truthy (prop "success" body)); simpl; [|by right].
    destruct (prop "notifications" body) as [[| | | |items|]|]; simpl;
      (by right) || by left.
  - unfold Bell.loadNotifications, settle, tryCatch, bind.
    destruct (Api.authenticatedApiRequest _ _ env) as [calls [r|e|]];
      simpl; [|by right..].
    destruct (Api.parseApiResponse r env) as [calls' [body|e|]];
      simpl; [|by right..].
    destruct (truthy (prop "success" body)); simpl; [|by right].
    destruct (prop "notifications" body) as [[| | | |items|]|]; simpl;
      (by right) || by left.
Qed.

Example push_before_snapshot_is_lost :
  settle (Bell.loadNotifications (answering (snapshotOf 2)))
    (Bell.handleNewNotification (sample "pushed") initialStore)
  = mkStore (map sample (numbered 2)) 2.
Proof. vm_compute. reflexivity. Qed.

(** ** Mark all against pushes *)

Lemma string_append_same_length (a b x y : string) :
  String.length a = String.length b -> a +:+ x = b +:+ y -> a = b.
Proof.
  revert b. induction a as [|c a IH]; intros [|c' b] Hlen Heq; simpl in Hlen;
    try done.
  rewrite !string_append_cons in Heq. injection Heq as -> Heq.
  f_equal. apply IH; [lia | done].
Qed.

Lemma string_append_inj_r (a b x : string) : a +:+ x = b +:+ x -> a = b.
Proof.
  intros Heq. apply (string_append_same_length a b x x); [|done].
  pose proof (f_equal String.length Heq) as Hlen.
  rewrite !string_length_append in Hlen. lia.
Qed.

Lemma markReadCall_inj env i j : markReadCall env i = markReadCall env j -> i = j.
Proof.
  unfold markReadCall, resolvedUrl, markReadEndpoint. intros [= Hurl].
  change (String.prefix "http" ("/customer-notifications/" +:+ i +:+ "/mark-read"))
    with false in Hurl.
  change (String.prefix "http" ("/customer-notifications/" +:+ j +:+ "/mark-read"))
    with false in Hurl.
  apply String.app_inj in Hurl. apply String.app_inj in Hurl.
  by apply string_append_inj_r in Hurl.
Qed.

(** X29: mark-all asks the backend only about the notifications the bell was
    rendered with, but clears whatever the list holds when the requests are
    done: a notification pushed in between, whose id was not rendered, is
    dropped from the list without any mark-read request for it. *)
Theorem mark_all_drops_unrendered_notifications rendered env s n :
  Forall (fun m => exists response,
            (markReadRequest (notification_id m) env).2 = Fulfilled response)
    rendered ->
  n ∈ notifications s ->
  notification_id n ∉ ids rendered ->
  (n ∉ notifications (settle (Bell.handleMarkAllAsRead rendered env) s))
  /\ (markReadCall env (notification_id n)
      ∉ (Bell.handleMarkAllAsRead rendered env).1).
Proof.
  intros Hall Hheld Hnew. split.
  - unfold settle. rewrite mark_all_outcome.
    destruct (promiseAll_fulfilled
                (map (fun m => (markReadRequest (notification_id m) env).2) rendered))
      as [l ->]; [|apply not_elem_of_nil].
    apply Forall_fmap. eapply Forall_impl; [exact Hall|].
    intros m [r Hr]. exists r. exact Hr.
  - rewrite mark_all_calls. intros Hin.
    apply list_elem_of_fmap in Hin as (m & Heq & Hm).
    apply markReadCall_inj in Heq. apply Hnew. unfold ids.
    apply list_elem_of_fmap. exists m. by split.
Qed.

Lemma pushed_during_mark_all :
  settle (Bell.handleMarkAllAsRead [sample "a"] (answering noContent))
    (mkStore [sample "late"; sample "a"] 2)
  = mkStore [] 0
  /\ (markReadCall (answering noContent) "late"
      ∉ (Bell.handleMarkAllAsRead [sample "a"] (answering noContent)).1).
Proof.
  destruct (mark_all_drops_unrendered_notifications [sample "a"]
              (answering noContent) (mkStore [sample "late"; sample "a"] 2)
              (sample "late")) as [_ Hcalls].
  - repeat constructor. exists noContent. vm_compute. reflexivity.
  - apply list_elem_of_here.
  - apply (bool_decide_unpack _). vm_compute. exact I.
  - split; [vm_compute; reflexivity | exact Hcalls].
Defined.
